(** * A shallow embedding of [server.js], the media-posting backend

    The server keeps an ordered list of post records in one JSON document
    ([posts.json]) and the uploaded media in a content directory
    ([uploads/]).  Every route handler is a [try { ... } catch] block that
    reads the whole document, changes the list in memory and writes the
    whole document back.

    The embedding follows the source function by function:
    - JavaScript values that travel through JSON are [JSValue]s;
    - the process state the handlers touch (the document, the content
      directory) is the record [World], threaded through a small
      state-and-exception monad [M];
    - readings of the outside world (the clock, the random generator) are
      given with each request, in [Env].

    Conventions of the model, each stated where it is used: a string is
    the sequence of bytes of its UTF-8 encoding; numbers are decimal
    integers with a power-of-ten exponent, kept as written; a document
    that was written by [writePosts] is read back by [readPosts] as the
    same list (JSON serialisation of the records is transparent); paths
    are taken relative to the server directory, in which the process is
    started. *)

From Stdlib Require Import ZArith Ascii String List Lia Bool.
From Stdlib Require Decimal DecimalString DecimalPos.
From stdpp Require Import base option list strings gmap sorting.

Set Warnings "-register-all".

Local Open Scope string_scope.
Local Open Scope Z_scope.

(** ** Strings *)

Module Str.

Definition chars (s : string) : list ascii := list_ascii_of_string s.
Definition of_chars (l : list ascii) : string := string_of_list_ascii l.

Definition code (c : ascii) : nat := nat_of_ascii c.

Definition byte (n : nat) : ascii := ascii_of_nat n.

(** Lower case of an ASCII letter. *)
Definition lower_char (c : ascii) : ascii :=
  if (65 <=? code c)%nat && (code c <=? 90)%nat
  then ascii_of_nat (code c + 32) else c.

(** [String.prototype.toLowerCase], on the UTF-8 text.  ASCII letters are
    lowered; of the characters outside ASCII, two have a lower case with
    an ASCII letter in it and are mapped: U+0130 (bytes C4 B0) to [i]
    followed by U+0307 (CC 87), and U+212A (E2 84 AA) to [k].  Every other
    character outside ASCII is lowered to characters outside ASCII and is
    left as it is here: the lowered text is only searched for words of
    ASCII letters, which cannot tell the difference. *)
Fixpoint toLowerCase (s : string) : string :=
  match s with
  | EmptyString => EmptyString
  | String a s1 =>
      match s1 with
      | EmptyString => String (lower_char a) EmptyString
      | String b s2 =>
          if (code a =? 196)%nat && (code b =? 176)%nat then
            String "i" (String (byte 204) (String (byte 135) (toLowerCase s2)))
          else
            match s2 with
            | EmptyString => String (lower_char a) (toLowerCase s1)
            | String c s3 =>
                if (code a =? 226)%nat && (code b =? 132)%nat && (code c =? 170)%nat
                then String "k" (toLowerCase s3)
                else String (lower_char a) (toLowerCase s1)
            end
      end
  end.

Fixpoint startsWith (s p : string) {struct p} : bool :=
  match p, s with
  | EmptyString, _ => true
  | String a p', String b s' => if decide (a = b) then startsWith s' p' else false
  | String _ _, EmptyString => false
  end.

(** [includes s t]: [t] occurs somewhere in [s] ([String.prototype.includes]). *)
Fixpoint includes (s t : string) : bool :=
  startsWith s t ||
  match s with
  | EmptyString => false
  | String _ s' => includes s' t
  end.

(** White space of [trim] and of [parseInt] (WhiteSpace and
    LineTerminator of the language), by the length of its UTF-8 encoding.
    One byte: TAB, LF, VT, FF, CR and space. *)
Definition is_white (c : ascii) : bool :=
  ((9 <=? code c)%nat && (code c <=? 13)%nat) || (code c =? 32)%nat.

(** Two bytes: U+00A0 (C2 A0). *)
Definition white2 (a b : ascii) : bool :=
  (code a =? 194)%nat && (code b =? 160)%nat.

(** Three bytes: U+1680 (E1 9A 80), U+2000 to U+200A (E2 80 80 to 8A),
    U+2028, U+2029 and U+202F (E2 80 A8, A9, AF), U+205F (E2 81 9F),
    U+3000 (E3 80 80) and U+FEFF (EF BB BF). *)
Definition white3 (a b c : ascii) : bool :=
  ((code a =? 225)%nat && (code b =? 154)%nat && (code c =? 128)%nat)
  || ((code a =? 226)%nat && (code b =? 128)%nat
      && (((128 <=? code c)%nat && (code c <=? 138)%nat)
          || (code c =? 168)%nat || (code c =? 169)%nat || (code c =? 175)%nat))
  || ((code a =? 226)%nat && (code b =? 129)%nat && (code c =? 159)%nat)
  || ((code a =? 227)%nat && (code b =? 128)%nat && (code c =? 128)%nat)
  || ((code a =? 239)%nat && (code b =? 187)%nat && (code c =? 191)%nat).

(** Removes the white space at the head of a text; with [fwd = false] the
    text is read backwards, last byte first. *)
Fixpoint strip (fwd : bool) (l : list ascii) : list ascii :=
  match l with
  | [] => []
  | a :: r1 =>
      if is_white a then strip fwd r1
      else
        match r1 with
        | [] => l
        | b :: r2 =>
            if (if fwd then white2 a b else white2 b a) then strip fwd r2
            else
              match r2 with
              | [] => l
              | c :: r3 =>
                  if (if fwd then white3 a b c else white3 c b a) then strip fwd r3
                  else l
              end
        end
  end.

Definition trimStart (l : list ascii) : list ascii := strip true l.
Definition trimEnd (l : list ascii) : list ascii := rev (strip false (rev l)).

(** [String.prototype.trim]. *)
Definition trim (s : string) : string :=
  of_chars (trimEnd (trimStart (chars s))).

(** The double quote, and a text between double quotes. *)
Definition quote : ascii := ascii_of_nat 34.
Definition quoted (s : string) : string := String quote (s +:+ String quote "").

(** JavaScript truthiness of a string. *)
Definition nonempty (s : string) : bool :=
  match s with EmptyString => false | _ => true end.

End Str.

(** ** Node's [path.extname] (POSIX flavour)

    The extension of the last component of the path: from its last dot to
    its end; empty when the component has no dot, when its only dot is its
    first character, and for the component [..].  Trailing slashes are
    ignored. *)

Module Path.

Definition slash : ascii := "/"%char.
Definition dot : ascii := "."%char.

Fixpoint drop_slashes (l : list ascii) : list ascii :=
  match l with
  | c :: l' => if decide (c = slash) then drop_slashes l' else l
  | [] => []
  end.

Fixpoint take_component (l : list ascii) : list ascii :=
  match l with
  | c :: l' => if decide (c = slash) then [] else c :: take_component l'
  | [] => []
  end.

(** The last component, reversed. *)
Definition last_component_rev (p : string) : list ascii :=
  take_component (drop_slashes (rev (Str.chars p))).

(** Splits a reversed component at its first dot: the reversed text after
    the dot, and the reversed text before it. *)
Fixpoint split_dot (rc : list ascii) : option (list ascii * list ascii) :=
  match rc with
  | [] => None
  | c :: rc' =>
      if decide (c = dot) then Some ([], rc')
      else match split_dot rc' with
           | Some (after, before) => Some (c :: after, before)
           | None => None
           end
  end.

Definition extname (p : string) : string :=
  match split_dot (last_component_rev p) with
  | None => ""
  | Some (_, []) => ""
  | Some (after, before) =>
      if decide (after = [] ∧ before = [dot]) then ""
      else Str.of_chars (dot :: rev after)
  end.

End Path.

(** ** JavaScript values that travel through JSON

    A number is [m * 10^e]; the server itself only produces integers
    ([Date.now()]), and no function below looks at the value of a
    number other than to ask whether it is zero. *)

Inductive JSValue : Type :=
  | JNull
  | JBool (b : bool)
  | JNumber (m e : Z)
  | JString (s : string)
  | JArray (items : list JSValue)
  | JObject (members : list (string * JSValue)).

(** [if (v)]: the falsy values are [null], [false], zero and the empty string. *)
Definition truthy (v : JSValue) : bool :=
  match v with
  | JNull => false
  | JBool b => b
  | JNumber m _ => negb (m =? 0)
  | JString s => Str.nonempty s
  | JArray _ | JObject _ => true
  end.

(** Truthiness of a variable that may be [undefined]. *)
Definition supplied_truthy (o : option JSValue) : bool :=
  match o with Some v => truthy v | None => false end.

(** ** [JSON.parse] *)

Module Json.

Definition digit_val (c : ascii) : option Z :=
  let n := Str.code c in
  if (48 <=? n)%nat && (n <=? 57)%nat then Some (Z.of_nat (n - 48)) else None.

Definition hex_val (c : ascii) : option Z :=
  let n := Str.code c in
  if (48 <=? n)%nat && (n <=? 57)%nat then Some (Z.of_nat (n - 48))
  else if (97 <=? n)%nat && (n <=? 102)%nat then Some (Z.of_nat (n - 87))
  else if (65 <=? n)%nat && (n <=? 70)%nat then Some (Z.of_nat (n - 55))
  else None.

(** The longest prefix of digits in the given alphabet, and what follows it. *)
Fixpoint take_digits (val : ascii → option Z) (l : list ascii) : list Z * list ascii :=
  match l with
  | c :: l' =>
      match val c with
      | Some d => let '(ds, r) := take_digits val l' in (d :: ds, r)
      | None => ([], l)
      end
  | [] => ([], [])
  end.

Definition digits_value (radix : Z) (ds : list Z) : Z :=
  fold_left (λ acc d, acc * radix + d) ds 0.

Definition is_ws (c : ascii) : bool :=
  let n := Str.code c in
  (n =? 32)%nat || (n =? 9)%nat || (n =? 10)%nat || (n =? 13)%nat.

Fixpoint skip_ws (l : list ascii) : list ascii :=
  match l with
  | c :: l' => if is_ws c then skip_ws l' else l
  | [] => []
  end.

Fixpoint strip_prefix (p l : list ascii) : option (list ascii) :=
  match p, l with
  | [], _ => Some l
  | a :: p', b :: l' => if decide (a = b) then strip_prefix p' l' else None
  | _ :: _, [] => None
  end.

(** UTF-8 bytes of a code unit below 65536. *)
Definition utf8 (n : Z) : list ascii :=
  let byte (k : Z) := ascii_of_nat (Z.to_nat k) in
  if n <? 128 then [byte n]
  else if n <? 2048 then [byte (192 + n / 64); byte (128 + n mod 64)]
  else [byte (224 + n / 4096); byte (128 + (n / 64) mod 64); byte (128 + n mod 64)].

Definition simple_escape (c : ascii) : option ascii :=
  if decide (c = Str.quote) then Some Str.quote
  else if decide (c = "\"%char) then Some "\"%char
  else if decide (c = "/"%char) then Some "/"%char
  else if decide (c = "b"%char) then Some (ascii_of_nat 8)
  else if decide (c = "f"%char) then Some (ascii_of_nat 12)
  else if decide (c = "n"%char) then Some (ascii_of_nat 10)
  else if decide (c = "r"%char) then Some (ascii_of_nat 13)
  else if decide (c = "t"%char) then Some (ascii_of_nat 9)
  else None.

Definition hex4 (a b c d : ascii) : option Z :=
  match hex_val a, hex_val b, hex_val c, hex_val d with
  | Some x, Some y, Some z, Some w => Some (digits_value 16 [x; y; z; w])
  | _, _, _, _ => None
  end.

(** The text of a string literal after its opening quote; [acc] holds the
    decoded bytes so far, last first. *)
Fixpoint parse_string (l acc : list ascii) : option (string * list ascii) :=
  match l with
  | [] => None
  | c :: r =>
      if decide (c = Str.quote) then Some (Str.of_chars (rev acc), r)
      else if decide (c = "\"%char) then
        match r with
        | [] => None
        | e :: r1 =>
            if decide (e = "u"%char) then
              match r1 with
              | h1 :: h2 :: h3 :: h4 :: r2 =>
                  match hex4 h1 h2 h3 h4 with
                  | Some n => parse_string r2 (rev (utf8 n) ++ acc)
                  | None => None
                  end
              | _ => None
              end
            else match simple_escape e with
                 | Some x => parse_string r1 (x :: acc)
                 | None => None
                 end
        end
      else if (Str.code c <? 32)%nat then None
      else parse_string r (c :: acc)
  end.

Definition parse_exponent (l : list ascii) : option (Z * list ascii) :=
  match l with
  | c :: r =>
      if decide (c = "e"%char ∨ c = "E"%char) then
        let '(sign, r1) :=
          match r with
          | s :: r' =>
              if decide (s = "-"%char) then (-1, r')
              else if decide (s = "+"%char) then (1, r')
              else (1, r)
          | [] => (1, r)
          end in
        match take_digits digit_val r1 with
        | ([], _) => None
        | (es, r2) => Some (sign * digits_value 10 es, r2)
        end
      else Some (0, l)
  | [] => Some (0, l)
  end.

Definition parse_fraction (l : list ascii) : option (list Z * list ascii) :=
  match l with
  | c :: r =>
      if decide (c = "."%char) then
        match take_digits digit_val r with
        | ([], _) => None
        | (fs, r1) => Some (fs, r1)
        end
      else Some ([], l)
  | [] => Some ([], l)
  end.

(** A number literal: an optional minus sign, an integer part without
    leading zeros, an optional fraction and an optional exponent. *)
Definition parse_number (l : list ascii) : option (JSValue * list ascii) :=
  let '(sign, l1) :=
    match l with
    | c :: r => if decide (c = "-"%char) then (-1, r) else (1, l)
    | [] => (1, l)
    end in
  match take_digits digit_val l1 with
  | ([], _) => None
  | (0 :: _ :: _, _) => None
  | (ds, r) =>
      fs ← parse_fraction r;
      ex ← parse_exponent fs.2;
      Some (JNumber (sign * digits_value 10 (ds ++ fs.1))
                    (ex.1 - Z.of_nat (length fs.1)), ex.2)
  end.

Fixpoint parse_value (fuel : nat) (l : list ascii) {struct fuel}
    : option (JSValue * list ascii) :=
  match fuel with
  | O => None
  | S fuel' =>
      match skip_ws l with
      | [] => None
      | c :: r =>
          if decide (c = "["%char) then
            match skip_ws r with
            | c' :: r' =>
                if decide (c' = "]"%char) then Some (JArray [], r')
                else parse_elements fuel' r []
            | [] => None
            end
          else if decide (c = "{"%char) then
            match skip_ws r with
            | c' :: r' =>
                if decide (c' = "}"%char) then Some (JObject [], r')
                else parse_members fuel' r []
            | [] => None
            end
          else if decide (c = Str.quote) then
            '(s, r') ← parse_string r []; Some (JString s, r')
          else if decide (c = "n"%char) then
            r' ← strip_prefix (Str.chars "ull") r; Some (JNull, r')
          else if decide (c = "t"%char) then
            r' ← strip_prefix (Str.chars "rue") r; Some (JBool true, r')
          else if decide (c = "f"%char) then
            r' ← strip_prefix (Str.chars "alse") r; Some (JBool false, r')
          else parse_number (c :: r)
      end
  end
with parse_elements (fuel : nat) (l : list ascii) (acc : list JSValue) {struct fuel}
    : option (JSValue * list ascii) :=
  match fuel with
  | O => None
  | S fuel' =>
      '(v, r) ← parse_value fuel' l;
      match skip_ws r with
      | c :: r' =>
          if decide (c = ","%char) then parse_elements fuel' r' (v :: acc)
          else if decide (c = "]"%char) then Some (JArray (rev (v :: acc)), r')
          else None
      | [] => None
      end
  end
with parse_members (fuel : nat) (l : list ascii) (acc : list (string * JSValue))
    {struct fuel} : option (JSValue * list ascii) :=
  match fuel with
  | O => None
  | S fuel' =>
      match skip_ws l with
      | q :: r0 =>
          if decide (q = Str.quote) then
            '(k, r1) ← parse_string r0 [];
            match skip_ws r1 with
            | c1 :: r2 =>
                if decide (c1 = ":"%char) then
                  '(v, r) ← parse_value fuel' r2;
                  match skip_ws r with
                  | c :: r' =>
                      if decide (c = ","%char) then parse_members fuel' r' ((k, v) :: acc)
                      else if decide (c = "}"%char) then Some (JObject (rev ((k, v) :: acc)), r')
                      else None
                  | [] => None
                  end
                else None
            | [] => None
            end
          else None
      | [] => None
      end
  end.

(** [JSON.parse(text)]: [None] stands for the [SyntaxError] it throws.
    Every recursive call above follows the consumption of at least one
    character or is the first call on an element, so twice the length of
    the text bounds the depth.

    The value is the text as it is written: a number keeps its decimal
    digits and its exponent and is not rounded to a number of the
    language, the members of an object keep the order and the repetitions
    of the text, and each [\u] escape is decoded by itself.  The
    statements below ask [parse] whether a text is JSON; none says what
    a number, an object or an escape in the tags leaves in a record. *)
Definition parse (text : string) : option JSValue :=
  let l := Str.chars text in
  match parse_value (2 * length l + 2) l with
  | Some (v, r) => match skip_ws r with [] => Some v | _ :: _ => None end
  | None => None
  end.

End Json.

(** ** [parseInt] and the decimal text of an integer *)

(** [parseInt(text)] with no radix: leading white space is skipped, a sign
    is read, a [0x] or [0X] prefix selects radix 16, and the longest prefix
    of digits is the value; what follows the digits is ignored.  [None]
    stands for [NaN], which the absence of any digit gives.

    The value is the integer that the digits denote.  The program gets
    the number of the language nearest to it, which is that integer
    whenever it is a safe integer, as the readings of a clock are; the
    statements about the integer read in an arbitrary text assume that it
    is one. *)
Definition parseInt (text : string) : option Z :=
  let s := Str.trimStart (Str.chars text) in
  let '(sign, s1) :=
    match s with
    | c :: r =>
        if decide (c = "-"%char) then (-1, r)
        else if decide (c = "+"%char) then (1, r)
        else (1, s)
    | [] => (1, s)
    end in
  let '(radix, val, s2) :=
    match s1 with
    | z :: x :: r =>
        if decide (z = "0"%char ∧ (x = "x"%char ∨ x = "X"%char))
        then (16, Json.hex_val, r) else (10, Json.digit_val, s1)
    | _ => (10, Json.digit_val, s1)
    end in
  match Json.take_digits val s2 with
  | ([], _) => None
  | (ds, _) => Some (sign * Json.digits_value radix ds)
  end.

(** The text of an integer, as [String(n)] and string concatenation give
    it for the integers a clock or an id can be (below [10^21] in
    magnitude). *)
Definition Number_toString (n : Z) : string :=
  DecimalString.NilZero.string_of_int (Z.to_int n).

(** ** The data model *)

Inductive MediaType : Type := image | video.

(** A post.  The id is the integer that [Date.now()] gave; [type] and
    [url] are set at creation.  The other fields hold JSON values: the
    create handler stores strings, the parsed tags and [null], and the
    update handler stores whatever truthy value the request body carries. *)
Record Post : Type := {
  id : Z;
  type : MediaType;
  url : string;
  title : JSValue;
  description : JSValue;
  date : JSValue;
  tags : JSValue;
  externalLink : JSValue
}.

(** An entry of the content directory.  Removing a [Protected] entry
    fails, as [unlink] does on a file the process may not remove. *)
Inductive FileEntry : Type := Plain | Protected.

(** What the handlers read and write: the content of [posts.json] ([None]
    when it cannot be read or parsed), the number of times it was written,
    and the files below the server directory, by path. *)
Record World : Type := {
  doc : option (list Post);
  doc_writes : nat;
  files : gmap string FileEntry
}.

Definition set_files (f : gmap string FileEntry) (w : World) : World :=
  {| doc := doc w; doc_writes := doc_writes w; files := f |}.

(** ** Computations that change the world and may throw *)

Inductive Result (A : Type) : Type :=
  | Ok (a : A)
  | Throw (err : string).
Arguments Ok {A} a.
Arguments Throw {A} err.

Definition M (A : Type) : Type := World → Result A * World.

Definition throw {A} (err : string) : M A := λ w, (Throw err, w).

#[global] Instance M_ret : MRet M := λ A a w, (Ok a, w).
#[global] Instance M_bind : MBind M := λ A B k m w,
  match m w with
  | (Ok a, w') => k a w'
  | (Throw e, w') => (Throw e, w')
  end.

(** ** The file system and the document *)

(** [fs.existsSync] *)
Definition existsSync (p : string) : M bool :=
  λ w, (Ok (bool_decide (is_Some (files w !! p))), w).

(** [fs.unlinkSync]: throws when there is no such file and when the file
    cannot be removed. *)
Definition unlinkSync (p : string) : M unit := λ w,
  match files w !! p with
  | None => (Throw "ENOENT", w)
  | Some Protected => (Throw "EPERM", w)
  | Some Plain => (Ok (), set_files (delete p (files w)) w)
  end.

(** [readPosts]: [fs.readFileSync] and [JSON.parse] throw on a document
    that cannot be read. *)
Definition readPosts : M (list Post) := λ w,
  match doc w with
  | Some posts => (Ok posts, w)
  | None => (Throw "posts.json", w)
  end.

(** [writePosts]: the whole list replaces the content of the document. *)
Definition writePosts (posts : list Post) : M unit := λ w,
  (Ok (), {| doc := Some posts; doc_writes := S (doc_writes w); files := files w |}).

(** ** Requests and responses *)

Inductive Body : Type :=
  | BodyPosts (posts : list Post)
  | BodyPost (post : Post)
  | BodyMessage (message : string)
  | BodyError (error : string)
  | BodyErrorPage (message : string).

Record Response : Type := { status : nat; body : Body }.

Definition json (st : nat) (b : Body) : Response := {| status := st; body := b |}.

(** [try { ... } catch (error) { res.status(500).json({ error: msg }) }] *)
Definition try_catch (h : M Response) (msg : string) (w : World) : Response * World :=
  match h w with
  | (Ok r, w') => (r, w')
  | (Throw _, w') => (json 500 (BodyError msg), w')
  end.

(** Readings of the outside world during one request: the clock when
    the upload is named, the random integer of the name, the clock when
    the record is built, and the day that [new Date()] gives then. *)
Record Env : Type := {
  upload_ms : Z;
  random : Z;
  now_ms : Z;
  today : string
}.

(** The file part of a multipart request: the declared filename, the
    declared MIME type and the number of bytes of the content.  The
    parser that multer reads the request with cuts a part at a size
    limit; for a part of exactly the length of the limit its releases
    differ, and [cut_at_limit] says whether the one in use cuts it. *)
Record FilePart : Type := {
  originalname : string;
  mimetype : string;
  size : Z;
  cut_at_limit : bool
}.

(** [req.file] once the part is stored. *)
Record StoredFile : Type := {
  part : FilePart;
  filename : string;
  path : string
}.

(** A multipart request: its file part, if any, sent in the field
    [file], and the text fields that the handler reads, each sent at most
    once, under its plain name and within the default limits of multer
    for text fields; [None] is [undefined]. *)
Record CreateReq : Type := {
  file : option FilePart;
  c_title : option string;
  c_description : option string;
  c_date : option string;
  c_tags : option string;
  c_externalLink : option string
}.

(** The JSON body of an update; [None] is [undefined] (key absent). *)
Record UpdateBody : Type := {
  u_title : option JSValue;
  u_description : option JSValue;
  u_date : option JSValue;
  u_tags : option JSValue;
  u_externalLink : option JSValue
}.

(** ** The upload handler (the [multer] configuration) *)

(** The alternatives of the regular expression [allowedTypes]. *)
Definition allowedTypes : list string :=
  ["jpeg"; "jpg"; "png"; "gif"; "webp"; "mp4"; "mov"; "avi"; "webm"].

(** [allowedTypes.test(s)]: the expression has no anchor, so it succeeds
    when one alternative occurs anywhere in [s]. *)
Definition allowedTypes_test (s : string) : bool :=
  existsb (Str.includes s) allowedTypes.

(** [fileFilter]: [true] is [cb(null, true)], [false] is [cb(new Error(...))]. *)
Definition fileFilter (f : FilePart) : bool :=
  let extname := allowedTypes_test (Str.toLowerCase (Path.extname (originalname f))) in
  let mimetype := allowedTypes_test (mimetype f) in
  mimetype && extname.

(** [storage.filename] *)
Definition storage_filename (e : Env) (f : FilePart) : string :=
  let uniqueSuffix := Number_toString (upload_ms e) +:+ "-" +:+ Number_toString (random e) in
  uniqueSuffix +:+ Path.extname (originalname f).

(** [storage.destination] *)
Definition destination : string := "uploads/".

(** A path relative to the working directory, which is the server
    directory, as a path below the server directory. *)
Definition in_cwd (p : string) : string := "/" +:+ p.

(** [path.join(__dirname, u)], as a path below the server directory, for
    a url as the server writes it: [/uploads/] followed by a name without
    a slash.  (For another text [path.join] would also resolve [.] and
    [..] segments and repeated slashes.) *)
Definition join_dirname (u : string) : string :=
  if Str.startsWith u "/" then u else "/" +:+ u.

Inductive Upload : Type :=
  | NoFile
  | Stored (f : StoredFile)
  | Refused (err : string).

(** [limits.fileSize] *)
Definition fileSize : Z := 50 * 1024 * 1024.

(** The part is cut at [limits.fileSize]: it is longer than the limit,
    or as long and the parser cuts at the limit. *)
Definition truncated (f : FilePart) : bool :=
  (fileSize <? size f) || ((size f =? fileSize) && cut_at_limit f).

(** [upload.single('file')], for a request with at most one file part,
    in the field [file].  A part that [fileFilter] refuses is not handed
    to the storage and the request ends in the error.  An accepted part
    is written under its generated name; when it is cut at the limit the
    written file is removed again and the request ends in the error
    [LIMIT_FILE_SIZE]. *)
Definition upload_single (e : Env) (p : option FilePart) (w : World) : Upload * World :=
  match p with
  | None => (NoFile, w)
  | Some f =>
      if fileFilter f then
        let name := storage_filename e f in
        let sf := {| part := f; filename := name; path := destination +:+ name |} in
        if truncated f then
          (Refused "File too large", set_files (delete (in_cwd (path sf)) (files w)) w)
        else
          (Stored sf, set_files (<[in_cwd (path sf) := Plain]> (files w)) w)
      else (Refused "Solo immagini e video sono permessi!", w)
  end.

(** ** The routes *)

Definition field (o : option string) : option JSValue := JString <$> o.

(** [v.trim()]: only a string has the method; calling it on another
    value throws a [TypeError]. *)
Definition call_trim (v : JSValue) : M string :=
  match v with
  | JString s => mret (Str.trim s)
  | _ => throw "TypeError: externalLink.trim is not a function"
  end.

(** [externalLink && externalLink.trim() ? externalLink.trim() : null] *)
Definition normalizeLink (externalLink : option JSValue) : M JSValue :=
  match externalLink with
  | Some v =>
      if truthy v then
        t ← call_trim v;
        if Str.nonempty t then t' ← call_trim v; mret (JString t')
        else mret JNull
      else mret JNull
  | None => mret JNull
  end.

(** [p.id === parseInt(req.params.id)]: [NaN] is equal to nothing. *)
Definition id_matches (param : string) (p : Post) : Prop :=
  parseInt param = Some (id p).

#[global] Instance id_matches_dec param p : Decision (id_matches param p).
Proof. unfold id_matches. apply _. Defined.

(** GET /api/posts *)
Definition get_posts : World → Response * World :=
  try_catch
    (posts ← readPosts;
     mret (json 200 (BodyPosts posts)))
    "Errore nel recupero dei post".

(** GET /api/posts/:id *)
Definition get_post (param : string) : World → Response * World :=
  try_catch
    (posts ← readPosts;
     match list_find (id_matches param) posts with
     | None => mret (json 404 (BodyError "Post non trovato"))
     | Some (_, post) => mret (json 200 (BodyPost post))
     end)
    "Errore nel recupero del post".

(** The value of a variable that was tested to be truthy. *)
Definition value_of (o : option JSValue) : JSValue := default JNull o.

(** [tags ? JSON.parse(tags) : []] *)
Definition parse_tags (tags : option string) : M JSValue :=
  match tags with
  | Some text =>
      if Str.nonempty text then
        match Json.parse text with
        | Some v => mret v
        | None => throw "SyntaxError"
        end
      else mret (JArray [])
  | None => mret (JArray [])
  end.

(** The handler of POST /api/posts, after the upload middleware. *)
Definition create_handler (e : Env) (req : CreateReq) (req_file : option StoredFile)
    : World → Response * World :=
  try_catch
    (match req_file with
     | None => mret (json 400 (BodyError "File non caricato"))
     | Some f =>
         let title := field (c_title req) in
         let description := field (c_description req) in
         let date := field (c_date req) in
         let externalLink := field (c_externalLink req) in
         if negb (supplied_truthy title) || negb (supplied_truthy description) then
           _ ← unlinkSync (in_cwd (path f));
           mret (json 400 (BodyError "Titolo e descrizione sono obbligatori"))
         else
           posts ← readPosts;
           let fileType :=
             if Str.startsWith (mimetype (part f)) "image/" then image else video in
           tags ← parse_tags (c_tags req);
           link ← normalizeLink externalLink;
           let newPost := {|
             id := now_ms e;
             type := fileType;
             url := "/uploads/" +:+ filename f;
             title := value_of title;
             description := value_of description;
             date := if supplied_truthy date then value_of date else JString (today e);
             tags := tags;
             externalLink := link
           |} in
           _ ← writePosts (newPost :: posts);
           mret (json 201 (BodyPost newPost))
     end)
    "Errore nel creare il post".

(** POST /api/posts: the upload middleware, then the handler.  An error
    of the middleware reaches the default error handler of the framework,
    which answers 500 with a page that shows the error. *)
Definition post_posts (e : Env) (req : CreateReq) (w : World) : Response * World :=
  match upload_single e (file req) w with
  | (Refused err, w') => (json 500 (BodyErrorPage err), w')
  | (NoFile, w') => create_handler e req None w'
  | (Stored f, w') => create_handler e req (Some f) w'
  end.

(** DELETE /api/posts/:id *)
Definition delete_post (param : string) : World → Response * World :=
  try_catch
    (posts ← readPosts;
     match list_find (id_matches param) posts with
     | None => mret (json 404 (BodyError "Post non trovato"))
     | Some (postIndex, post) =>
         let filePath := join_dirname (url post) in
         present ← existsSync filePath;
         _ ← (if present : bool then unlinkSync filePath else mret ());
         _ ← writePosts (delete postIndex posts);
         mret (json 200 (BodyMessage "Post eliminato con successo"))
     end)
    "Errore nell'eliminare il post".

(** Assignments to the fields an update may change. *)
Definition set_title (v : JSValue) (p : Post) : Post :=
  {| id := id p; type := type p; url := url p; title := v;
     description := description p; date := date p; tags := tags p;
     externalLink := externalLink p |}.
Definition set_description (v : JSValue) (p : Post) : Post :=
  {| id := id p; type := type p; url := url p; title := title p;
     description := v; date := date p; tags := tags p;
     externalLink := externalLink p |}.
Definition set_date (v : JSValue) (p : Post) : Post :=
  {| id := id p; type := type p; url := url p; title := title p;
     description := description p; date := v; tags := tags p;
     externalLink := externalLink p |}.
Definition set_tags (v : JSValue) (p : Post) : Post :=
  {| id := id p; type := type p; url := url p; title := title p;
     description := description p; date := date p; tags := v;
     externalLink := externalLink p |}.
Definition set_externalLink (v : JSValue) (p : Post) : Post :=
  {| id := id p; type := type p; url := url p; title := title p;
     description := description p; date := date p; tags := tags p;
     externalLink := v |}.

(** [if (v) post.field = v] *)
Definition if_truthy (v : option JSValue) (set : JSValue → Post → Post) (p : Post) : Post :=
  match v with
  | Some x => if truthy x then set x p else p
  | None => p
  end.

(** The five conditional assignments of the update handler, in order. *)
Definition apply_update (b : UpdateBody) (p : Post) : M Post :=
  let p1 := if_truthy (u_title b) set_title p in
  let p2 := if_truthy (u_description b) set_description p1 in
  let p3 := if_truthy (u_date b) set_date p2 in
  let p4 := if_truthy (u_tags b) set_tags p3 in
  match u_externalLink b with
  | Some v => link ← normalizeLink (Some v); mret (set_externalLink link p4)
  | None => mret p4
  end.

(** PUT /api/posts/:id *)
Definition put_post (param : string) (b : UpdateBody) : World → Response * World :=
  try_catch
    (posts ← readPosts;
     match list_find (id_matches param) posts with
     | None => mret (json 404 (BodyError "Post non trovato"))
     | Some (postIndex, post) =>
         post' ← apply_update b post;
         let posts' := <[postIndex := post']> posts in
         _ ← writePosts posts';
         mret (json 200 (BodyPost post'))
     end)
    "Errore nell'aggiornare il post".

(** ** Requests as data *)

Inductive Request : Type :=
  | GetPosts
  | GetPost (param : string)
  | PostPosts (e : Env) (req : CreateReq)
  | PutPost (param : string) (b : UpdateBody)
  | DeletePost (param : string).

(** The routing table. *)
Definition handle (rq : Request) : World → Response * World :=
  match rq with
  | GetPosts => get_posts
  | GetPost param => get_post param
  | PostPosts e req => post_posts e req
  | PutPost param b => put_post param b
  | DeletePost param => delete_post param
  end.

(** The operations that change the collection. *)
Inductive Op : Type :=
  | Create (e : Env) (req : CreateReq)
  | Update (param : string) (b : UpdateBody)
  | Delete (param : string).

Definition step (w : World) (o : Op) : World :=
  match o with
  | Create e req => (post_posts e req w).2
  | Update param b => (put_post param b w).2
  | Delete param => (delete_post param w).2
  end.

Definition run (ops : list Op) (w : World) : World := fold_left step ops w.

(** ** Notions of the statements *)

(** [t] occurs in [s]. *)
Definition occurs (t s : string) : Prop := ∃ a b, s = a +:+ t +:+ b.

(** What [allowedTypes.test] decides. *)
Definition matches_allowed (s : string) : Prop :=
  ∃ t, t ∈ allowedTypes ∧ occurs t s.

(** The allow-list of the specification read as a list of extensions: the
    extension of the declared filename, in lower case and without its
    dot, is one of the entries. *)
Definition extension_listed (f : FilePart) : bool :=
  bool_decide (Str.toLowerCase (Path.extname (originalname f))
               ∈ (String.append ".") <$> allowedTypes).

(** [req.file] for a part that the storage accepted. *)
Definition stored_as (e : Env) (f : FilePart) : StoredFile :=
  {| part := f; filename := storage_filename e f;
     path := destination +:+ storage_filename e f |}.

(** [!title || !description] *)
Definition required_missing (req : CreateReq) : bool :=
  negb (supplied_truthy (field (c_title req)))
  || negb (supplied_truthy (field (c_description req))).

Definition missing_or_empty (o : option string) : Prop := o = None ∨ o = Some "".

(** Invalid metadata, in the words of the specification: a required field
    that is missing or empty and, more generally, a field that cannot be
    decoded; the tags are the one field that is decoded. *)
Definition metadata_invalid (req : CreateReq) : Prop :=
  missing_or_empty (c_title req)
  ∨ missing_or_empty (c_description req)
  ∨ ∃ text, c_tags req = Some text ∧ text ≠ "" ∧ Json.parse text = None.

(** A text of white space only: a sequence of white-space characters of
    one, two or three bytes. *)
Inductive blank : list ascii → Prop :=
  | blank_nil : blank []
  | blank_1 a l : Str.is_white a = true → blank l → blank (a :: l)
  | blank_2 a b l : Str.white2 a b = true → blank l → blank (a :: b :: l)
  | blank_3 a b c l : Str.white3 a b c = true → blank l → blank (a :: b :: c :: l).

(** What [normalizeLink] makes of a string. *)
Definition link_of_string (s : string) : JSValue :=
  if Str.nonempty (Str.trim s) then JString (Str.trim s) else JNull.

(** The record that the create handler builds. *)
Definition newPost_of (e : Env) (req : CreateReq) (f : StoredFile) (tags : JSValue) : Post :=
  {| id := now_ms e;
     type := if Str.startsWith (mimetype (part f)) "image/" then image else video;
     url := "/uploads/" +:+ filename f;
     title := value_of (field (c_title req));
     description := value_of (field (c_description req));
     date := if supplied_truthy (field (c_date req)) then value_of (field (c_date req))
             else JString (today e);
     tags := tags;
     externalLink := from_option link_of_string JNull (c_externalLink req) |}.

(** The fields that identify a post and its file. *)
Definition same_identity (p q : Post) : Prop :=
  id p = id q ∧ type p = type q ∧ url p = url q.

(** The post after the four conditional assignments that precede the one
    of [externalLink]. *)
Definition metadata_updated (b : UpdateBody) (p : Post) : Post :=
  if_truthy (u_tags b) set_tags
    (if_truthy (u_date b) set_date
       (if_truthy (u_description b) set_description
          (if_truthy (u_title b) set_title p))).

(** [if (v) field = v], on the value of the field. *)
Definition assigned (v : option JSValue) (old : JSValue) : JSValue :=
  if supplied_truthy v then value_of v else old.

(** The ids of the stored collection, in order. *)
Definition ids (w : World) : list Z := id <$> default [] (doc w).

(** The clock readings of the create requests, in order. *)
Fixpoint create_times (ops : list Op) : list Z :=
  match ops with
  | [] => []
  | Create e _ :: ops' => now_ms e :: create_times ops'
  | _ :: ops' => create_times ops'
  end.

(** A numeric id, in the words of the specification: the text of a
    decimal integer, that is an optional sign followed by digits only, at
    least one. *)
Definition numeric (param : string) : bool :=
  let l := Str.chars param in
  let ds := match l with
            | c :: r => if decide (c = "-"%char ∨ c = "+"%char) then r else l
            | [] => l
            end in
  negb (bool_decide (ds = []))
  && forallb (λ c, bool_decide (is_Some (Json.digit_val c))) ds.

(** A text that does not continue the decimal text of [n]: it is empty,
    or its first character is no digit and, after a lone zero, is not the
    [x] of a hexadecimal prefix. *)
Definition ends_number (n : Z) (rest : string) : Prop :=
  match rest with
  | EmptyString => True
  | String c _ =>
      Json.digit_val c = None ∧ (n = 0 → c ≠ "x"%char ∧ c ≠ "X"%char)
  end.

(** An integer that a number of the language holds exactly
    ([Number.MIN_SAFE_INTEGER] to [Number.MAX_SAFE_INTEGER]). *)
Definition safe_integer (n : Z) : Prop := - 2 ^ 53 < n < 2 ^ 53.

(** A 404 of GET, PUT or DELETE on one post, or a 400 of POST. *)
Definition refused (rq : Request) (r : Response) : Prop :=
  match rq with
  | GetPost _ | PutPost _ _ | DeletePost _ => status r = 404%nat
  | PostPosts _ _ => status r = 400%nat
  | GetPosts => False
  end.

(** ** Decimal digits *)

Fixpoint uint_digits (d : Decimal.uint) : list Z :=
  match d with
  | Decimal.Nil => []
  | Decimal.D0 d' => 0 :: uint_digits d'
  | Decimal.D1 d' => 1 :: uint_digits d'
  | Decimal.D2 d' => 2 :: uint_digits d'
  | Decimal.D3 d' => 3 :: uint_digits d'
  | Decimal.D4 d' => 4 :: uint_digits d'
  | Decimal.D5 d' => 5 :: uint_digits d'
  | Decimal.D6 d' => 6 :: uint_digits d'
  | Decimal.D7 d' => 7 :: uint_digits d'
  | Decimal.D8 d' => 8 :: uint_digits d'
  | Decimal.D9 d' => 9 :: uint_digits d'
  end.

Definition uint_chars (d : Decimal.uint) : list ascii :=
  Str.chars (DecimalString.NilEmpty.string_of_uint d).

(** A text that starts with a decimal digit, and not with [0x] or [0X]. *)
Definition digit_start (l : list ascii) : Prop :=
  ∃ c r, l = c :: r ∧ is_Some (Json.digit_val c)
         ∧ (c ≠ "0"%char
            ∨ match r with [] => True | x :: _ => x ≠ "x"%char ∧ x ≠ "X"%char end).

(** ** Sample requests and worlds *)

Definition env0 : Env :=
  {| upload_ms := 1699999999990; random := 123456789;
     now_ms := 1700000000000; today := "2023-11-14" |}.

Definition second_env : Env :=
  {| upload_ms := 1700000000100; random := 7;
     now_ms := 1700000000123; today := "2023-11-14" |}.

Definition jpeg_part : FilePart :=
  {| originalname := "holiday.JPG"; mimetype := "image/jpeg"; size := 1024; cut_at_limit := false |}.

Definition trip_req : CreateReq :=
  {| file := Some jpeg_part; c_title := Some "Trip"; c_description := Some "Summer";
     c_date := None; c_tags := None; c_externalLink := None |}.

Definition second_req : CreateReq :=
  {| file := Some {| originalname := "clip.mp4"; mimetype := "video/mp4"; size := 1024; cut_at_limit := false |};
     c_title := Some "Clip"; c_description := Some "Beach";
     c_date := Some "2023-08-01"; c_tags := Some ("[" +:+ Str.quoted "sea" +:+ "]");
     c_externalLink := Some " https://example.org " |}.

Definition undecodable_tags_req : CreateReq :=
  {| file := Some jpeg_part; c_title := Some "Trip"; c_description := Some "Summer";
     c_date := None; c_tags := Some "oops"; c_externalLink := None |}.

(** The post that [trip_req] creates under [env0]. *)
Definition trip_post : Post :=
  {| id := 1700000000000; type := image;
     url := "/uploads/1699999999990-123456789.JPG";
     title := JString "Trip"; description := JString "Summer";
     date := JString "2023-11-14"; tags := JArray []; externalLink := JNull |}.

(** [trip_post] with one tag, and a world that holds it. *)
Definition tagged_post : Post := set_tags (JArray [JString "sea"]) trip_post.

Definition tagged_world : World :=
  {| doc := Some [tagged_post]; doc_writes := 0; files := ∅ |}.

(** Update bodies: no key at all, and an empty array of tags. *)
Definition no_fields : UpdateBody :=
  {| u_title := None; u_description := None; u_date := None;
     u_tags := None; u_externalLink := None |}.

Definition empty_tags : UpdateBody :=
  {| u_title := None; u_description := None; u_date := None;
     u_tags := Some (JArray []); u_externalLink := None |}.

(** The no-break space U+00A0, in UTF-8. *)
Definition nbsp : string := String (Str.byte 194) (String (Str.byte 160) "").

(** The capital I with a dot above, U+0130, in UTF-8. *)
Definition dotted_capital_i : string :=
  String (Str.byte 196) (String (Str.byte 176) "").

(** [trip_req] with a file part one byte longer than [limits.fileSize]. *)
Definition oversize_req : CreateReq :=
  {| file := Some {| originalname := "holiday.JPG"; mimetype := "image/jpeg";
                     size := fileSize + 1; cut_at_limit := false |};
     c_title := Some "Trip"; c_description := Some "Summer";
     c_date := None; c_tags := None; c_externalLink := None |}.

Definition empty_world : World := {| doc := Some []; doc_writes := 0; files := ∅ |}.

(** A world with [trip_post] and its backing file. *)
Definition trip_world : World :=
  {| doc := Some [trip_post]; doc_writes := 0;
     files := {[ "/uploads/1699999999990-123456789.JPG" := Plain ]} |}.

(** A world with [trip_post], whose backing file cannot be removed. *)
Definition protected_world : World :=
  {| doc := Some [trip_post]; doc_writes := 0;
     files := {[ "/uploads/1699999999990-123456789.JPG" := Protected ]} |}.

(** ** Notions of the further properties *)

(** [tags ? JSON.parse(tags) : []] as a value; [None] when [JSON.parse]
    throws. *)
Definition tags_value (tags : option string) : option JSValue :=
  match tags with
  | Some text => if Str.nonempty text then Json.parse text else Some (JArray [])
  | None => Some (JArray [])
  end.


(** The answer of a request that changed the collection: 201 for a
    create, 200 for an update or a delete. *)
Definition succeeded (rq : Request) (r : Response) : Prop :=
  match rq with
  | PostPosts _ _ => status r = 201%nat
  | PutPost _ _ | DeletePost _ => status r = 200%nat
  | GetPosts | GetPost _ => False
  end.

(** A list of ids from the largest to the smallest, without repetition. *)
Definition descending (l : list Z) : Prop := StronglySorted (λ a b, b < a) l.

(** A stored link in normal form: [null], or a text that is not empty and
    has no white space at either end. *)
Definition normalized_link (v : JSValue) : Prop :=
  v = JNull ∨ ∃ s, v = JString s ∧ s ≠ "" ∧ Str.trim s = s.

(** A text with its ASCII capitals lowered, and every other byte as it
    is: two texts with the same image differ at most in the case of
    their ASCII letters. *)
Fixpoint ascii_lower (s : string) : string :=
  match s with
  | EmptyString => EmptyString
  | String c s' => String (Str.lower_char c) (ascii_lower s')
  end.

(** A character that is neither a dot nor a slash. *)
Definition plain_char (c : ascii) : Prop := c ≠ Path.dot ∧ c ≠ Path.slash.

(** The names under which the create requests of a sequence store their
    files, as paths below the server directory; a request whose part the
    filter refuses, or that has no part, stores nothing. *)
Fixpoint stored_paths (ops : list Op) : list string :=
  match ops with
  | [] => []
  | Create e req :: ops' =>
      match file req with
      | Some f =>
          if fileFilter f then in_cwd (path (stored_as e f)) :: stored_paths ops'
          else stored_paths ops'
      | None => stored_paths ops'
      end
  | _ :: ops' => stored_paths ops'
  end.

(** The files of the posts of the collection, as paths below the server
    directory. *)
Definition post_files (w : World) : list string :=
  (λ p, join_dirname (url p)) <$> default [] (doc w).

(** * Properties *)

Example extname_plain : Path.extname "photo.JPG" = ".JPG".
Proof. reflexivity. Qed.
Example extname_last_dot : Path.extname "a.tar.gz" = ".gz".
Proof. reflexivity. Qed.
Example extname_dotfile : Path.extname ".jpeg" = "".
Proof. reflexivity. Qed.
Example extname_dotdot : Path.extname "dir/.." = "".
Proof. reflexivity. Qed.
Example extname_dir : Path.extname "a.b/c" = "".
Proof. reflexivity. Qed.
Example extname_trailing_dot : Path.extname "a." = ".".
Proof. reflexivity. Qed.

Example parse_string_array :
  Json.parse ("[" +:+ Str.quoted "a" +:+ ", " +:+ Str.quoted "b" +:+ "]")
  = Some (JArray [JString "a"; JString "b"]).
Proof. vm_compute. reflexivity. Qed.
Example parse_nested :
  Json.parse (" {" +:+ Str.quoted "k" +:+ ": [1, -2.50e1, true, null], "
              +:+ Str.quoted "s" +:+ ": " +:+ Str.quoted "x\nA" +:+ "} ")
  = Some (JObject [("k", JArray [JNumber 1 0; JNumber (-250) (-1); JBool true; JNull]);
                   ("s", JString (String "x" (String (ascii_of_nat 10) "A")))]).
Proof. vm_compute. reflexivity. Qed.
Example parse_bare_word : Json.parse "oops" = None.
Proof. vm_compute. reflexivity. Qed.
Example parse_trailing_comma : Json.parse "[1,]" = None.
Proof. vm_compute. reflexivity. Qed.
Example parse_leading_zero : Json.parse "01" = None.
Proof. vm_compute. reflexivity. Qed.
Example parse_empty : Json.parse "" = None.
Proof. vm_compute. reflexivity. Qed.

Example parseInt_plain : parseInt "1700000000000" = Some 1700000000000.
Proof. vm_compute. reflexivity. Qed.
Example parseInt_prefix : parseInt "12abc" = Some 12.
Proof. vm_compute. reflexivity. Qed.
Example parseInt_space_sign : parseInt "  -42.9" = Some (-42).
Proof. vm_compute. reflexivity. Qed.
Example parseInt_hex : parseInt "0x1F" = Some 31.
Proof. vm_compute. reflexivity. Qed.
Example parseInt_word : parseInt "abc" = None.
Proof. vm_compute. reflexivity. Qed.
Example parseInt_empty : parseInt "" = None.
Proof. vm_compute. reflexivity. Qed.

Example toString_id : Number_toString 1700000000000 = "1700000000000".
Proof. vm_compute. reflexivity. Qed.
Example toString_zero : Number_toString 0 = "0".
Proof. vm_compute. reflexivity. Qed.

Example parseInt_no_break_space :
  parseInt (nbsp +:+ "1700000000000") = Some 1700000000000.
Proof. vm_compute. reflexivity. Qed.

Example empty_array_is_truthy : truthy (JArray []) = true.
Proof. reflexivity. Qed.
Example trim_both_ends : Str.trim "  a b  " = "a b".
Proof. reflexivity. Qed.
Example trim_no_break_space : Str.trim (nbsp +:+ " a b" +:+ nbsp) = "a b".
Proof. reflexivity. Qed.
Example trim_only_no_break_space : Str.trim nbsp = "".
Proof. reflexivity. Qed.
Example toLowerCase_dotted_capital_i :
  Str.includes (Str.toLowerCase (".AV" +:+ dotted_capital_i)) "avi" = true.
Proof. reflexivity. Qed.
Example filter_dotted_capital_i :
  fileFilter {| originalname := "clip.AV" +:+ dotted_capital_i; mimetype := "video/avi";
                size := 1024; cut_at_limit := false |} = true.
Proof. reflexivity. Qed.
Example create_oversize :
  post_posts env0 oversize_req empty_world
  = (json 500 (BodyErrorPage "File too large"),
     {| doc := Some []; doc_writes := 0;
        files := delete "/uploads/1699999999990-123456789.JPG" ∅ |}).
Proof. vm_compute. reflexivity. Qed.
Example filter_txt : fileFilter {| originalname := "notes.txt"; mimetype := "text/plain"; size := 1024; cut_at_limit := false |} = false.
Proof. reflexivity. Qed.
Example filter_upper_case : fileFilter jpeg_part = true.
Proof. reflexivity. Qed.
Example filter_mime_upper_case :
  fileFilter {| originalname := "holiday.jpg"; mimetype := "IMAGE/JPEG"; size := 1024; cut_at_limit := false |} = false.
Proof. reflexivity. Qed.
Example create_trip :
  post_posts env0 trip_req empty_world
  = (json 201 (BodyPost trip_post),
     {| doc := Some [trip_post]; doc_writes := 1;
        files := <["/uploads/1699999999990-123456789.JPG" := Plain]> ∅ |}).
Proof. vm_compute. reflexivity. Qed.

(** ** Occurrence of a text in a string *)

Lemma app_cons c (s t : string) : String c s +:+ t = String c (s +:+ t).
Proof. reflexivity. Qed.

Lemma app_empty (t : string) : "" +:+ t = t.
Proof. reflexivity. Qed.

Lemma startsWith_spec s p : Str.startsWith s p = true ↔ ∃ b, s = p +:+ b.
Proof.
  revert s. induction p as [|a p IH]; intros s; simpl.
  - split; [intros _; by exists s | done].
  - destruct s as [|c s].
    + split; [done | intros [b Hb]; by rewrite app_cons in Hb].
    + case_decide as Hac.
      * subst c. rewrite IH. split; intros [b Hb]; exists b.
        -- by rewrite app_cons, Hb.
        -- rewrite app_cons in Hb. by injection Hb.
      * split; [done | intros [b Hb]]. rewrite app_cons in Hb. congruence.
Qed.

Lemma includes_spec s t : Str.includes s t = true ↔ occurs t s.
Proof.
  induction s as [|c s IH]; simpl; rewrite orb_true_iff, startsWith_spec.
  - split.
    + intros [[b Hb]|?]; [|done]. exists "", b. by rewrite app_empty.
    + intros ([|x a] & b & Hab); [|by rewrite app_cons in Hab].
      left. exists b. by rewrite app_empty in Hab.
  - rewrite IH. split.
    + intros [[b Hb]|(a & b & Hab)].
      * exists "", b. by rewrite app_empty.
      * exists (String c a), b. by rewrite app_cons, Hab.
    + intros ([|x a] & b & Hab).
      * left. exists b. by rewrite app_empty in Hab.
      * right. rewrite app_cons in Hab. injection Hab as -> Hs. by exists a, b.
Qed.

Lemma allowedTypes_test_spec s : allowedTypes_test s = true ↔ matches_allowed s.
Proof.
  unfold allowedTypes_test, matches_allowed. rewrite existsb_exists.
  split; intros (t & Ht & Hs); exists t.
  - apply list_elem_of_In in Ht. by rewrite <- includes_spec.
  - apply list_elem_of_In in Ht. by rewrite includes_spec.
Qed.

Lemma fileFilter_spec f :
  fileFilter f = true ↔
  matches_allowed (Str.toLowerCase (Path.extname (originalname f)))
  ∧ matches_allowed (mimetype f).
Proof.
  unfold fileFilter. rewrite andb_true_iff, !allowedTypes_test_spec. tauto.
Qed.

(** ** C1: the file-type gate *)

(** C1, as stated, fails: a part named [notes.xjpg] that declares
    [image/jpeg] is accepted and stored, although [xjpg] is not an entry
    of the allow-list. *)
Lemma C1_accepts_unlisted_extension :
  let f := {| originalname := "notes.xjpg"; mimetype := "image/jpeg"; size := 1024; cut_at_limit := false |} in
  extension_listed f = false
  ∧ (upload_single env0 (Some f) empty_world).1
    = Stored {| part := f; filename := "1699999999990-123456789.xjpg";
                path := "uploads/1699999999990-123456789.xjpg" |}
  ∧ files (upload_single env0 (Some f) empty_world).2
      !! "/uploads/1699999999990-123456789.xjpg" = Some Plain.
Proof. vm_compute. done. Qed.

(** C1, amended: an upload is accepted only if one of the words jpeg, jpg,
    png, gif, webp, mp4, mov, avi, webm occurs in the lower-cased
    extension of the declared filename and one occurs in the declared MIME
    type (taken as it is); when either test fails, the request ends in an
    error, answered with 500, and the content directory and the document
    are as they were. *)
Theorem C1_upload_filter (e : Env) (req : CreateReq) (f : FilePart) (w : World) :
  file req = Some f →
  let accepted :=
    matches_allowed (Str.toLowerCase (Path.extname (originalname f)))
    ∧ matches_allowed (mimetype f) in
  ((∃ sf w', upload_single e (Some f) w = (Stored sf, w')) → accepted)
  ∧ (¬ accepted →
     (∃ err, upload_single e (Some f) w = (Refused err, w))
     ∧ (∃ err, post_posts e req w = (json 500 (BodyErrorPage err), w))).
Proof.
  intros Hf accepted. subst accepted. rewrite <- fileFilter_spec.
  unfold post_posts. rewrite Hf. unfold upload_single.
  destruct (fileFilter f) eqn:Hff.
  - split; [done|]. by intros [].
  - split.
    + by intros (sf & w' & ?).
    + intros _. split; eauto.
Qed.

Lemma C1_upload_filter_witness :
  let f := {| originalname := "notes.txt"; mimetype := "text/plain"; size := 1024; cut_at_limit := false |} in
  let req := {| file := Some f; c_title := Some "T"; c_description := Some "D";
                c_date := None; c_tags := None; c_externalLink := None |} in
  ∃ err, post_posts env0 req empty_world = (json 500 (BodyErrorPage err), empty_world).
Proof.
  intros f req.
  refine (proj2 (proj2 (C1_upload_filter env0 req f empty_world eq_refl) _)).
  rewrite <- fileFilter_spec. vm_compute. discriminate.
Defined.

(** ** How the handlers run *)

Ltac run_monad :=
  unfold try_catch, readPosts, writePosts, existsSync, unlinkSync, throw,
    mbind, M_bind, mret, M_ret in *; simpl in *.

Lemma nonempty_trim s : Str.nonempty s = false → Str.nonempty (Str.trim s) = false.
Proof. by destruct s. Qed.

Lemma normalizeLink_string s w :
  normalizeLink (Some (JString s)) w = (Ok (link_of_string s), w).
Proof.
  unfold normalizeLink, link_of_string. simpl.
  destruct (Str.nonempty s) eqn:Hs.
  - run_monad. by destruct (Str.nonempty (Str.trim s)).
  - by rewrite nonempty_trim.
Qed.

Lemma normalizeLink_falsy v w :
  truthy v = false → normalizeLink (Some v) w = (Ok JNull, w).
Proof. intros Hv. unfold normalizeLink. by rewrite Hv. Qed.

Lemma normalizeLink_world o w : (normalizeLink o w).2 = w.
Proof.
  destruct o as [v|]; [|done]. unfold normalizeLink.
  destruct (truthy v); [|done].
  destruct v; try done. run_monad. by destruct (Str.nonempty (Str.trim s)).
Qed.

Lemma normalizeLink_field o w :
  normalizeLink (field o) w = (Ok (from_option link_of_string JNull o), w).
Proof. destruct o as [s|]; [apply normalizeLink_string | done]. Qed.

Lemma parse_tags_world t w : (parse_tags t w).2 = w.
Proof.
  unfold parse_tags. destruct t as [text|]; [|done].
  destruct (Str.nonempty text); [|done]. by destruct (Json.parse text).
Qed.

Lemma apply_update_world b p w : (apply_update b p w).2 = w.
Proof.
  unfold apply_update. destruct (u_externalLink b) as [v|]; [|done].
  pose proof (normalizeLink_world (Some v) w) as Hw.
  unfold mbind, M_bind.
  by destruct (normalizeLink (Some v) w) as [[l|err] w'].
Qed.

Lemma get_posts_run w :
  get_posts w =
  match doc w with
  | Some posts => (json 200 (BodyPosts posts), w)
  | None => (json 500 (BodyError "Errore nel recupero dei post"), w)
  end.
Proof. unfold get_posts. run_monad. by destruct (doc w). Qed.

Lemma get_post_run param w :
  get_post param w =
  match doc w with
  | Some posts =>
      match list_find (id_matches param) posts with
      | Some (_, post) => (json 200 (BodyPost post), w)
      | None => (json 404 (BodyError "Post non trovato"), w)
      end
  | None => (json 500 (BodyError "Errore nel recupero del post"), w)
  end.
Proof.
  unfold get_post. run_monad. destruct (doc w) as [posts|]; [|done].
  by destruct (list_find _ posts) as [[i p]|].
Qed.

Lemma delete_post_run param w :
  delete_post param w =
  match doc w with
  | Some posts =>
      match list_find (id_matches param) posts with
      | Some (postIndex, post) =>
          let filePath := join_dirname (url post) in
          match files w !! filePath with
          | Some Protected =>
              (json 500 (BodyError "Errore nell'eliminare il post"), w)
          | _ =>
              (json 200 (BodyMessage "Post eliminato con successo"),
               {| doc := Some (delete postIndex posts);
                  doc_writes := S (doc_writes w);
                  files := delete filePath (files w) |})
          end
      | None => (json 404 (BodyError "Post non trovato"), w)
      end
  | None => (json 500 (BodyError "Errore nell'eliminare il post"), w)
  end.
Proof.
  unfold delete_post. run_monad. destruct (doc w) as [posts|]; [|done].
  destruct (list_find _ posts) as [[i p]|]; [|done]. simpl.
  destruct (files w !! join_dirname (url p)) as [[|]|] eqn:Hf; simpl.
  - rewrite Hf. done.
  - rewrite Hf. done.
  - by rewrite delete_id.
Qed.

Lemma put_post_run param b w :
  put_post param b w =
  match doc w with
  | Some posts =>
      match list_find (id_matches param) posts with
      | Some (postIndex, post) =>
          match (apply_update b post w).1 with
          | Ok post' =>
              (json 200 (BodyPost post'),
               {| doc := Some (<[postIndex := post']> posts);
                  doc_writes := S (doc_writes w);
                  files := files w |})
          | Throw _ => (json 500 (BodyError "Errore nell'aggiornare il post"), w)
          end
      | None => (json 404 (BodyError "Post non trovato"), w)
      end
  | None => (json 500 (BodyError "Errore nell'aggiornare il post"), w)
  end.
Proof.
  unfold put_post. run_monad. destruct (doc w) as [posts|]; [|done].
  destruct (list_find _ posts) as [[i p]|]; [|done].
  pose proof (apply_update_world b p w) as Hw.
  destruct (apply_update b p w) as [[p'|err] w']; simpl in *; by subst.
Qed.

Lemma create_handler_run e req sf w :
  create_handler e req (Some sf) w =
  if required_missing req then
    match files w !! in_cwd (path sf) with
    | Some Plain =>
        (json 400 (BodyError "Titolo e descrizione sono obbligatori"),
         set_files (delete (in_cwd (path sf)) (files w)) w)
    | _ => (json 500 (BodyError "Errore nel creare il post"), w)
    end
  else
    match doc w with
    | Some posts =>
        match (parse_tags (c_tags req) w).1 with
        | Ok tags =>
            (json 201 (BodyPost (newPost_of e req sf tags)),
             {| doc := Some (newPost_of e req sf tags :: posts);
                doc_writes := S (doc_writes w);
                files := files w |})
        | Throw _ => (json 500 (BodyError "Errore nel creare il post"), w)
        end
    | None => (json 500 (BodyError "Errore nel creare il post"), w)
    end.
Proof.
  unfold create_handler, required_missing.
  destruct (negb _ || negb _) eqn:Hreq.
  - run_monad. by destruct (files w !! in_cwd (path sf)) as [[|]|].
  - unfold try_catch, readPosts, mbind, M_bind.
    destruct (doc w) as [posts|]; [|done].
    pose proof (parse_tags_world (c_tags req) w) as Hw.
    destruct (parse_tags (c_tags req) w) as [[tags|err] w1]; simpl in Hw; subst w1; [|done].
    rewrite normalizeLink_field. reflexivity.
Qed.

Lemma post_posts_run e req w :
  post_posts e req w =
  match file req with
  | None => (json 400 (BodyError "File non caricato"), w)
  | Some f =>
      if fileFilter f then
        let sf := stored_as e f in
        let w1 := set_files (<[in_cwd (path sf) := Plain]> (files w)) w in
        if truncated f then
          (json 500 (BodyErrorPage "File too large"),
           set_files (delete (in_cwd (path sf)) (files w)) w)
        else if required_missing req then
          (json 400 (BodyError "Titolo e descrizione sono obbligatori"),
           set_files (delete (in_cwd (path sf)) (files w)) w)
        else
          match doc w with
          | Some posts =>
              match (parse_tags (c_tags req) w1).1 with
              | Ok tags =>
                  (json 201 (BodyPost (newPost_of e req sf tags)),
                   {| doc := Some (newPost_of e req sf tags :: posts);
                      doc_writes := S (doc_writes w);
                      files := files w1 |})
              | Throw _ => (json 500 (BodyError "Errore nel creare il post"), w1)
              end
          | None => (json 500 (BodyError "Errore nel creare il post"), w1)
          end
      else (json 500 (BodyErrorPage "Solo immagini e video sono permessi!"), w)
  end.
Proof.
  unfold post_posts, upload_single. destruct (file req) as [f|]; [|done].
  destruct (fileFilter f); [|done]. fold (stored_as e f). cbv zeta.
  destruct (truncated f); [done|].
  rewrite create_handler_run.
  destruct (required_missing req); [|done].
  simpl files. rewrite lookup_insert_eq. unfold set_files. simpl.
  by rewrite delete_insert_eq.
Qed.

Lemma upload_single_stored e req w sf :
  (upload_single e (file req) w).1 = Stored sf →
  ∃ f, file req = Some f ∧ fileFilter f = true ∧ truncated f = false
       ∧ sf = stored_as e f.
Proof.
  unfold upload_single. destruct (file req) as [f|]; [|done].
  destruct (fileFilter f) eqn:Hf; [|done]. cbv zeta.
  destruct (truncated f) eqn:Hsize; [done|].
  simpl. intros [= <-]. exists f. by split_and!.
Qed.

(** ** C2: invalid metadata after a stored upload *)

Lemma supplied_truthy_field o :
  supplied_truthy (field o) = false ↔ missing_or_empty o.
Proof.
  unfold missing_or_empty. destruct o as [[|c s]|]; simpl.
  - split; auto.
  - split; [done | intros [?|?]; done].
  - split; auto.
Qed.

Lemma required_missing_iff req :
  required_missing req = true ↔
  missing_or_empty (c_title req) ∨ missing_or_empty (c_description req).
Proof.
  unfold required_missing.
  rewrite orb_true_iff, !negb_true_iff, !supplied_truthy_field. done.
Qed.

(** C2, as stated, fails: with a title and a description but tags that are
    not JSON, the stored file stays in the content directory and the
    answer is 500, not 400. *)
Lemma C2_undecodable_tags_leave_file :
  (upload_single env0 (file undecodable_tags_req) empty_world).1
    = Stored (stored_as env0 jpeg_part)
  ∧ metadata_invalid undecodable_tags_req
  ∧ status (post_posts env0 undecodable_tags_req empty_world).1 = 500%nat
  ∧ doc (post_posts env0 undecodable_tags_req empty_world).2 = Some []
  ∧ files (post_posts env0 undecodable_tags_req empty_world).2
      !! in_cwd (path (stored_as env0 jpeg_part)) = Some Plain.
Proof.
  split; [by vm_compute|]. split.
  - right; right. exists "oops". split; [done|]. split; [done|]. by vm_compute.
  - by vm_compute.
Qed.

(** C2, amended: when the file was stored and the title or the description
    is missing or empty, the answer is 400, the document is neither
    changed nor written, and the stored file is removed again, the rest
    of the content directory being as before. *)
Theorem C2_missing_required_fields (e : Env) (req : CreateReq) (w : World) (sf : StoredFile) :
  (upload_single e (file req) w).1 = Stored sf →
  missing_or_empty (c_title req) ∨ missing_or_empty (c_description req) →
  let r := post_posts e req w in
  status r.1 = 400%nat
  ∧ doc r.2 = doc w
  ∧ doc_writes r.2 = doc_writes w
  ∧ files r.2 !! in_cwd (path sf) = None
  ∧ files r.2 = delete (in_cwd (path sf)) (files w).
Proof.
  intros (f & Hfile & Hff & Hsize & ->)%upload_single_stored
    Hmiss%required_missing_iff r.
  subst r. rewrite post_posts_run, Hfile, Hff. cbv zeta. rewrite Hsize, Hmiss. simpl.
  split_and!; try done. apply lookup_delete_eq.
Qed.

Lemma C2_missing_required_fields_witness :
  let req := {| file := Some jpeg_part; c_title := Some ""; c_description := Some "Summer";
                c_date := None; c_tags := None; c_externalLink := None |} in
  let r := post_posts env0 req empty_world in
  status r.1 = 400%nat
  ∧ doc r.2 = Some []
  ∧ doc_writes r.2 = 0%nat
  ∧ files r.2 !! "/uploads/1699999999990-123456789.JPG" = None
  ∧ files r.2 = delete "/uploads/1699999999990-123456789.JPG" ∅.
Proof.
  intros req.
  refine (C2_missing_required_fields env0 req empty_world (stored_as env0 jpeg_part) _ _).
  - vm_compute. reflexivity.
  - left. right. reflexivity.
Defined.

(** ** C3: deleting a post and its backing file *)

(** C3, as stated, fails: when removing the backing file fails, the
    handler answers 500 and the record stays in the document, which is
    not written. *)
Lemma C3_unlink_failure_keeps_record :
  list_find (id_matches "1700000000000") [trip_post] = Some (0%nat, trip_post)
  ∧ status (delete_post "1700000000000" protected_world).1 = 500%nat
  ∧ doc (delete_post "1700000000000" protected_world).2 = Some [trip_post]
  ∧ doc_writes (delete_post "1700000000000" protected_world).2 = 0%nat.
Proof. by vm_compute. Qed.

(** C3, amended: on an existing id, when the backing file is missing or is
    removed, the answer is 200, the first record with that id is removed
    and the document is written; a missing file is not an error and leaves
    the content directory as it was.  When removing a file that exists
    fails, the answer is 500 and nothing changes. *)
Theorem C3_delete_existing (param : string) (w : World) (posts : list Post)
    (postIndex : nat) (post : Post) :
  doc w = Some posts →
  list_find (id_matches param) posts = Some (postIndex, post) →
  let filePath := join_dirname (url post) in
  let r := delete_post param w in
  (files w !! filePath ≠ Some Protected →
     r = (json 200 (BodyMessage "Post eliminato con successo"),
          {| doc := Some (delete postIndex posts);
             doc_writes := S (doc_writes w);
             files := delete filePath (files w) |}))
  ∧ (files w !! filePath = None → status r.1 = 200%nat ∧ files r.2 = files w)
  ∧ (files w !! filePath = Some Protected →
     r = (json 500 (BodyError "Errore nell'eliminare il post"), w)).
Proof.
  intros Hdoc Hfind filePath r. subst r filePath.
  rewrite delete_post_run, Hdoc, Hfind. cbv zeta.
  destruct (files w !! join_dirname (url post)) as [[|]|] eqn:Hf.
  - split_and!; done.
  - split_and!; done.
  - split_and!; try done. intros _. simpl. split; [done|]. by apply delete_id.
Qed.

Lemma C3_delete_existing_witness :
  let w := {| doc := Some [trip_post]; doc_writes := 0; files := ∅ |} in
  delete_post "1700000000000" w
  = (json 200 (BodyMessage "Post eliminato con successo"),
     {| doc := Some []; doc_writes := 1;
        files := delete "/uploads/1699999999990-123456789.JPG" ∅ |}).
Proof.
  intros w.
  refine (proj1 (C3_delete_existing "1700000000000" w [trip_post] 0 trip_post
                   eq_refl _) _).
  - vm_compute. reflexivity.
  - vm_compute. discriminate.
Defined.

(** ** What an update may change *)

Lemma if_truthy_identity v set p :
  (∀ x q, same_identity (set x q) q) → same_identity (if_truthy v set p) p.
Proof.
  intros Hset. unfold if_truthy. destruct v as [x|]; [|done].
  by destruct (truthy x).
Qed.

Lemma same_identity_trans p q r :
  same_identity p q → same_identity q r → same_identity p r.
Proof. unfold same_identity. intros (-> & -> & ->) (-> & -> & ->). done. Qed.

Lemma apply_update_identity b p w p' :
  (apply_update b p w).1 = Ok p' → same_identity p' p.
Proof.
  unfold apply_update.
  set (p4 := if_truthy (u_tags b) set_tags _).
  assert (same_identity p4 p) as H4.
  { subst p4.
    do 3 (eapply same_identity_trans;
          [apply if_truthy_identity; intros; by repeat split|]).
    apply if_truthy_identity; intros; by repeat split. }
  destruct (u_externalLink b) as [v|].
  - unfold mbind, M_bind. destruct (normalizeLink (Some v) w) as [[l|err] w1]; [|done].
    simpl. intros [= <-]. eapply same_identity_trans; [|done]. by repeat split.
  - simpl. by intros [= <-].
Qed.

Lemma put_post_frame param b w posts :
  doc w = Some posts →
  files (put_post param b w).2 = files w
  ∧ ∃ posts',
      doc (put_post param b w).2 = Some posts'
      ∧ length posts' = length posts
      ∧ ∀ j q, posts !! j = Some q →
          ∃ q', posts' !! j = Some q'
                ∧ same_identity q' q
                ∧ (fst <$> list_find (id_matches param) posts ≠ Some j → q' = q).
Proof.
  intros Hdoc. rewrite put_post_run, Hdoc.
  assert (∀ j q, posts !! j = Some q →
            ∃ q', posts !! j = Some q' ∧ same_identity q' q ∧
              (fst <$> list_find (id_matches param) posts ≠ Some j → q' = q)) as Hsame.
  { intros j q Hq. exists q. by rewrite Hq. }
  destruct (list_find _ posts) as [[i p]|] eqn:Hfind; simpl; [|by eauto].
  destruct (apply_update b p w).1 as [p'|err] eqn:Hup; simpl; [|by eauto].
  split; [done|]. exists (<[i:=p']> posts). split; [done|].
  split; [by rewrite length_insert|]. intros j q Hq.
  apply list_find_Some in Hfind as (Hi & _ & _).
  destruct (decide (i = j)) as [->|Hne].
  - exists p'. rewrite list_lookup_insert_eq by (by eapply lookup_lt_Some).
    split; [done|]. assert (q = p) as -> by congruence.
    split; [by eapply apply_update_identity | done].
  - exists q. rewrite list_lookup_insert_ne by done. by split_and!.
Qed.

Lemma put_post_ids param b w posts :
  doc w = Some posts →
  ∃ posts', doc (put_post param b w).2 = Some posts' ∧ id <$> posts' = id <$> posts.
Proof.
  intros Hdoc. destruct (put_post_frame param b w posts Hdoc)
    as (_ & posts' & Hdoc' & Hlen & Hsame).
  exists posts'. split; [done|]. apply list_eq. intros j.
  rewrite !list_lookup_fmap. destruct (posts !! j) as [q|] eqn:Hq.
  - destruct (Hsame j q Hq) as (q' & -> & (Hid & _) & _). simpl. by rewrite Hid.
  - apply lookup_ge_None in Hq. rewrite <- Hlen in Hq.
    apply lookup_ge_None in Hq. by rewrite Hq.
Qed.

(** ** Sequences of operations *)

(** A create either answers 201 and puts its record in front, or leaves
    the document alone. *)
Lemma post_posts_doc e req w :
  (∃ posts p,
      doc w = Some posts
      ∧ (post_posts e req w).1 = json 201 (BodyPost p)
      ∧ id p = now_ms e
      ∧ doc (post_posts e req w).2 = Some (p :: posts)
      ∧ doc_writes (post_posts e req w).2 = S (doc_writes w))
  ∨ (status (post_posts e req w).1 ≠ 201%nat
     ∧ doc (post_posts e req w).2 = doc w
     ∧ doc_writes (post_posts e req w).2 = doc_writes w).
Proof.
  rewrite post_posts_run. destruct (file req) as [f|]; [|by right].
  destruct (fileFilter f); [|by right]. cbv zeta.
  destruct (truncated f); [by right|].
  destruct (required_missing req); [by right|].
  destruct (doc w) as [posts|] eqn:Hdoc; [|right; simpl; by rewrite Hdoc].
  destruct (parse_tags _ _).1 as [tags|err]; [|right; simpl; by rewrite Hdoc].
  left. exists posts, (newPost_of e req (stored_as e f) tags). by split_and!.
Qed.

Lemma delete_post_doc param w :
  (delete_post param w).2 = w
  ∨ ∃ posts i p,
      doc w = Some posts
      ∧ list_find (id_matches param) posts = Some (i, p)
      ∧ status (delete_post param w).1 = 200%nat
      ∧ doc (delete_post param w).2 = Some (delete i posts).
Proof.
  rewrite delete_post_run. destruct (doc w) as [posts|] eqn:Hdoc; [|by left].
  destruct (list_find _ posts) as [[i p]|] eqn:Hfind; [|by left]. cbv zeta.
  destruct (files w !! _) as [[|]|]; [| by left |];
    right; exists posts, i, p; by split_and!.
Qed.

Lemma ids_step w o :
  (∃ e req, o = Create e req ∧ ids (step w o) = now_ms e :: ids w)
  ∨ ids (step w o) `sublist_of` ids w.
Proof.
  destruct o as [e req|param b|param]; simpl.
  - destruct (post_posts_doc e req w) as [(posts & p & Hdoc & _ & Hid & Hdoc' & _)|(_ & Hdoc' & _)].
    + left. exists e, req. split; [done|]. unfold ids. by rewrite Hdoc', Hdoc, <- Hid.
    + right. unfold ids. by rewrite Hdoc'.
  - right. unfold ids. destruct (doc w) as [posts|] eqn:Hdoc.
    + destruct (put_post_ids param b w posts Hdoc) as (posts' & Hdoc' & Hids).
      rewrite Hdoc'. simpl. by rewrite Hids.
    + rewrite put_post_run, Hdoc. simpl. by rewrite Hdoc.
  - right. destruct (delete_post_doc param w) as [->|(posts & i & p & Hdoc & _ & _ & Hdoc')]; [done|].
    unfold ids. rewrite Hdoc', Hdoc. simpl. rewrite list_fmap_delete. apply sublist_delete.
Qed.

Lemma run_ids_invariant ops : ∀ w,
  NoDup (ids w) →
  NoDup (create_times ops) →
  (∀ i, i ∈ ids w → i ∉ create_times ops) →
  NoDup (ids (run ops w))
  ∧ ∀ i, i ∈ ids (run ops w) → i ∈ ids w ∨ i ∈ create_times ops.
Proof.
  induction ops as [|o ops IH]; intros w Hnd Htimes Hfresh; simpl.
  - split; [done | by left].
  - destruct (ids_step w o) as [(e & req & -> & Hids)|Hsub].
    + simpl in *. apply NoDup_cons in Htimes as [Hnow Htimes].
      destruct (IH (post_posts e req w).2) as [Hnd' Hin]; [| done | |].
      * rewrite Hids. apply NoDup_cons. split; [|done].
        intros Hi. apply (Hfresh _ Hi). by left.
      * intros i. rewrite Hids. intros [->|Hi]%elem_of_cons; [done|].
        intros Hi'. apply (Hfresh _ Hi). by right.
      * split; [done|]. intros i Hi. destruct (Hin i Hi) as [Hi'|Hi'].
        -- rewrite Hids in Hi'. apply elem_of_cons in Hi' as [->|Hi']; [right; by left | by left].
        -- right. by right.
    + assert (∀ i, i ∈ create_times ops → i ∈ create_times (o :: ops)) as Hmono.
      { intros i Hi. destruct o; simpl; [by right|done..]. }
      assert (NoDup (create_times ops)) as Htimes'.
      { destruct o; simpl in Htimes; [by apply NoDup_cons in Htimes as [_ ?]|done..]. }
      destruct (IH (step w o)) as [Hnd' Hin]; [exact (sublist_NoDup _ _ Hnd Hsub) | done | |].
      * intros i Hi Hi'. apply (Hfresh i); [|by apply Hmono].
        exact (elem_of_sublist _ _ _ Hi Hsub).
      * split; [done|]. intros i Hi. destruct (Hin i Hi) as [Hi'|Hi'].
        -- left. exact (elem_of_sublist _ _ _ Hi' Hsub).
        -- right. by apply Hmono.
Qed.

(** ** C4: uniqueness of ids *)

(** C4, as stated, fails: two creations that read the same clock value
    give two posts with the same id. *)
Lemma C4_same_millisecond_same_id :
  ids (run [Create env0 trip_req; Create env0 trip_req] empty_world)
    = [1700000000000; 1700000000000]
  ∧ ¬ NoDup (ids (run [Create env0 trip_req; Create env0 trip_req] empty_world)).
Proof.
  assert (ids (run [Create env0 trip_req; Create env0 trip_req] empty_world)
          = [1700000000000; 1700000000000]) as Hids by (by vm_compute).
  split; [done|]. rewrite Hids. intros Hnd. apply NoDup_cons in Hnd as [Hnot _].
  apply Hnot. by left.
Qed.

(** C4, amended: after any sequence of create, update and delete
    operations that starts from an empty collection and in which no two
    create requests read the same clock value, the ids of the collection
    are pairwise different, and each is the clock reading of one of the
    create requests. *)
Theorem C4_ids_unique (ops : list Op) (w0 : World) :
  doc w0 = Some [] →
  NoDup (create_times ops) →
  NoDup (ids (run ops w0)) ∧ ∀ i, i ∈ ids (run ops w0) → i ∈ create_times ops.
Proof.
  intros Hdoc Htimes.
  assert (ids w0 = []) as Hempty by (unfold ids; by rewrite Hdoc).
  destruct (run_ids_invariant ops w0) as [Hnd Hin]; [| done | |].
  - rewrite Hempty. constructor.
  - intros i. rewrite Hempty. by intros ?%elem_of_nil.
  - split; [done|]. intros i Hi. destruct (Hin i Hi) as [Hi'|]; [|done].
    rewrite Hempty in Hi'. by apply elem_of_nil in Hi'.
Qed.

Lemma C4_ids_unique_witness :
  let ops := [Create env0 trip_req;
              Create {| upload_ms := 1700000000100; random := 7;
                        now_ms := 1700000000123; today := "2023-11-14" |} trip_req;
              Delete "1700000000000"] in
  NoDup (ids (run ops empty_world))
  ∧ ∀ i, i ∈ ids (run ops empty_world) → i ∈ create_times ops.
Proof.
  intros ops. refine (C4_ids_unique ops empty_world eq_refl _).
  apply (bool_decide_unpack _). vm_compute. exact I.
Defined.

(** ** C5: partial update *)

Lemma metadata_updated_fields b p :
  title (metadata_updated b p) = assigned (u_title b) (title p)
  ∧ description (metadata_updated b p) = assigned (u_description b) (description p)
  ∧ date (metadata_updated b p) = assigned (u_date b) (date p)
  ∧ tags (metadata_updated b p) = assigned (u_tags b) (tags p)
  ∧ externalLink (metadata_updated b p) = externalLink p.
Proof.
  unfold metadata_updated, if_truthy, assigned, supplied_truthy.
  destruct (u_title b) as [x1|]; [destruct (truthy x1)|];
    (destruct (u_description b) as [x2|]; [destruct (truthy x2)|]);
    (destruct (u_date b) as [x3|]; [destruct (truthy x3)|]);
    (destruct (u_tags b) as [x4|]; [destruct (truthy x4)|]); by split_and!.
Qed.

Lemma apply_update_run b p w :
  (apply_update b p w).1 =
  match u_externalLink b with
  | Some v =>
      match (normalizeLink (Some v) w).1 with
      | Ok link => Ok (set_externalLink link (metadata_updated b p))
      | Throw err => Throw err
      end
  | None => Ok (metadata_updated b p)
  end.
Proof.
  unfold apply_update. fold (metadata_updated b p).
  destruct (u_externalLink b) as [v|]; [|done].
  unfold mbind, M_bind. by destruct (normalizeLink (Some v) w) as [[l|err] w1].
Qed.

Ltac bool_to_prop :=
  repeat first [ rewrite orb_true_iff | rewrite andb_true_iff
               | rewrite Nat.eqb_eq | rewrite Nat.leb_le ].

Lemma white2_head a b fwd :
  (if fwd : bool then Str.white2 a b else Str.white2 b a) = true →
  Str.is_white a = false.
Proof.
  unfold Str.white2, Str.is_white. intros H. apply not_true_iff_false. revert H.
  destruct fwd; bool_to_prop; lia.
Qed.

Lemma white3_head a b c fwd :
  (if fwd : bool then Str.white3 a b c else Str.white3 c b a) = true →
  Str.is_white a = false
  ∧ ∀ x, (if fwd then Str.white2 a x else Str.white2 x a) = false.
Proof.
  unfold Str.white3, Str.white2, Str.is_white. intros H.
  split; [|intros x]; apply not_true_iff_false; revert H;
    (destruct fwd; bool_to_prop; lia).
Qed.

Lemma strip_blank l r : blank l → Str.strip true (l ++ r)%list = Str.strip true r.
Proof.
  induction 1 as [|a l Ha _ IH|a b l Hab _ IH|a b c l Habc _ IH]; [done|..].
  - simpl. by rewrite Ha.
  - simpl. by rewrite (white2_head a b true Hab), Hab.
  - destruct (white3_head a b c true Habc) as [Ha Hab].
    simpl. by rewrite Ha, (Hab b), Habc.
Qed.

Lemma trim_blank s : blank (Str.chars s) → Str.trim s = "".
Proof.
  intros Hs. unfold Str.trim, Str.trimStart.
  rewrite <- (app_nil_r (Str.chars s)). by rewrite (strip_blank _ [] Hs).
Qed.

(** C5, as stated, fails: the empty array is an empty tags value, but it
    is truthy, so an update that supplies it replaces the stored tags,
    whereas an update that supplies no tags leaves them; [externalLink]
    is not the only field for which "supplied as empty" differs from "not
    supplied". *)
Lemma C5_empty_tags_array_replaces :
  tags tagged_post = JArray [JString "sea"]
  ∧ put_post "1700000000000" empty_tags tagged_world
    = (json 200 (BodyPost trip_post),
       {| doc := Some [trip_post]; doc_writes := 1; files := ∅ |})
  ∧ tags trip_post = JArray []
  ∧ doc (put_post "1700000000000" no_fields tagged_world).2 = Some [tagged_post].
Proof. by vm_compute. Qed.

(** C5, amended: on an existing post, a title, description, date or tags
    value that is not supplied or is falsy (the empty string, [null],
    zero, [false]) leaves the stored field as it was, and when the update
    succeeds a truthy value, the empty array included, replaces it; a
    supplied [externalLink] string, the empty string included, or falsy
    value replaces the stored value by the trimmed text, or by [null]
    when nothing is left, as for a blank string; an [externalLink] that
    is not supplied leaves the stored value as it was. *)
Theorem C5_partial_update (param : string) (b : UpdateBody) (w : World)
    (posts : list Post) (postIndex : nat) (post : Post) :
  doc w = Some posts →
  list_find (id_matches param) posts = Some (postIndex, post) →
  let r := put_post param b w in
  ∃ post',
    doc r.2 = Some (<[postIndex := post']> posts)
    ∧ (supplied_truthy (u_title b) = false → title post' = title post)
    ∧ (supplied_truthy (u_description b) = false → description post' = description post)
    ∧ (supplied_truthy (u_date b) = false → date post' = date post)
    ∧ (supplied_truthy (u_tags b) = false → tags post' = tags post)
    ∧ (∀ s, u_externalLink b = Some (JString s) →
         r.1 = json 200 (BodyPost post')
         ∧ externalLink post'
           = (if Str.nonempty (Str.trim s) then JString (Str.trim s) else JNull)
         ∧ (blank (Str.chars s) → externalLink post' = JNull))
    ∧ (∀ v, u_externalLink b = Some v → truthy v = false →
         r.1 = json 200 (BodyPost post') ∧ externalLink post' = JNull)
    ∧ (u_externalLink b = None →
         r.1 = json 200 (BodyPost post') ∧ externalLink post' = externalLink post)
    ∧ (status r.1 = 200%nat →
         title post' = assigned (u_title b) (title post)
         ∧ description post' = assigned (u_description b) (description post)
         ∧ date post' = assigned (u_date b) (date post)
         ∧ tags post' = assigned (u_tags b) (tags post)).
Proof.
  intros Hdoc Hfind r. subst r. rewrite put_post_run, Hdoc, Hfind.
  rewrite apply_update_run.
  destruct (metadata_updated_fields b post) as (Ht & Hd & Hda & Hta & Hl).
  assert (∀ p',
    title p' = title (metadata_updated b post) →
    description p' = description (metadata_updated b post) →
    date p' = date (metadata_updated b post) →
    tags p' = tags (metadata_updated b post) →
    (supplied_truthy (u_title b) = false → title p' = title post)
    ∧ (supplied_truthy (u_description b) = false → description p' = description post)
    ∧ (supplied_truthy (u_date b) = false → date p' = date post)
    ∧ (supplied_truthy (u_tags b) = false → tags p' = tags post)) as Hfalsy.
  { intros p' -> -> -> ->. rewrite Ht, Hd, Hda, Hta. unfold assigned.
    split_and!; by intros ->. }
  destruct (u_externalLink b) as [v|] eqn:Hlink.
  - destruct (normalizeLink (Some v) w).1 as [link|err] eqn:Hnorm.
    + exists (set_externalLink link (metadata_updated b post)). simpl.
      destruct (Hfalsy (set_externalLink link (metadata_updated b post)))
        as (? & ? & ? & ?); [done..|].
      split_and!; try done.
      * intros s [= ->]. rewrite normalizeLink_string in Hnorm.
        injection Hnorm as <-. unfold link_of_string. split; [done|].
        split; [done|]. intros Hs. by rewrite (trim_blank _ Hs).
      * intros v' [= ->] Hv. rewrite normalizeLink_falsy in Hnorm by done.
        by injection Hnorm as <-.
    + exists post. simpl.
      split; [by rewrite list_insert_id by (by apply list_find_Some in Hfind as [? _])|].
      split_and!; try done.
      * intros s [= ->]. by rewrite normalizeLink_string in Hnorm.
      * intros v' [= ->] Hv. by rewrite normalizeLink_falsy in Hnorm.
  - exists (metadata_updated b post). simpl.
    destruct (Hfalsy (metadata_updated b post)) as (? & ? & ? & ?); [done..|].
    by split_and!.
Qed.

Lemma C5_partial_update_witness :
  let linked := set_externalLink (JString "https://example.org") trip_post in
  let w := {| doc := Some [linked]; doc_writes := 0; files := ∅ |} in
  let b := {| u_title := Some (JString ""); u_description := None; u_date := None;
              u_tags := None; u_externalLink := Some (JString (nbsp +:+ " ")) |} in
  ∃ post',
    doc (put_post "1700000000000" b w).2 = Some [post']
    ∧ title post' = JString "Trip"
    ∧ externalLink post' = JNull.
Proof.
  intros linked w b.
  destruct (C5_partial_update "1700000000000" b w [linked] 0 linked eq_refl)
    as (post' & Hdoc & Htitle & _ & _ & _ & Hlink & _).
  - vm_compute. reflexivity.
  - exists post'. split; [exact Hdoc|]. split; [exact (Htitle eq_refl)|].
    exact (proj2 (proj2 (Hlink (nbsp +:+ " ") eq_refl))
             (blank_2 (Str.byte 194) (Str.byte 160) [" "%char] eq_refl
                (blank_1 " "%char [] eq_refl blank_nil))).
Defined.

(** ** The decimal text of an integer is read back by [parseInt] *)

Lemma take_digits_uint d rest :
  match rest with [] => True | c :: _ => Json.digit_val c = None end →
  Json.take_digits Json.digit_val (uint_chars d ++ rest)%list = (uint_digits d, rest).
Proof.
  intros Hrest. unfold uint_chars.
  induction d as [|d IH|d IH|d IH|d IH|d IH|d IH|d IH|d IH|d IH|d IH];
    simpl; [|by rewrite IH..].
  destruct rest as [|c rest']; [done|]. simpl. by rewrite Hrest.
Qed.

Lemma digits_value_acc d : ∀ acc,
  fold_left (λ a x, a * 10 + x) (uint_digits d) (Z.pos acc)
  = Z.pos (Pos.of_uint_acc d acc).
Proof.
  induction d as [|d IH|d IH|d IH|d IH|d IH|d IH|d IH|d IH|d IH|d IH];
    intros acc; simpl; [done|..];
    rewrite <- IH; f_equal; lia.
Qed.

Lemma digits_value_uint d :
  Json.digits_value 10 (uint_digits d) = Z.of_N (Pos.of_uint d).
Proof.
  unfold Json.digits_value.
  induction d as [|d IH|d IH|d IH|d IH|d IH|d IH|d IH|d IH|d IH|d IH];
    simpl; [done | exact IH | apply digits_value_acc ..].
Qed.

Lemma uint_chars_start d rest :
  d ≠ Decimal.Nil →
  match rest with
  | [] => True
  | x :: _ => d = Decimal.D0 Decimal.Nil → x ≠ "x"%char ∧ x ≠ "X"%char
  end →
  digit_start (uint_chars d ++ rest)%list.
Proof.
  intros Hd Hrest. unfold digit_start, uint_chars.
  destruct d as [|d|d|d|d|d|d|d|d|d|d]; [done|..];
    (eexists _, _; split; [reflexivity|]; split; [by eexists|]); [|by left..].
  right. destruct d; simpl; try done.
  destruct rest as [|x rest']; [done|]. by apply Hrest.
Qed.

Lemma digit_facts c :
  is_Some (Json.digit_val c) →
  Str.is_white c = false ∧ (Str.code c < 128)%nat
  ∧ c ≠ "-"%char ∧ c ≠ "+"%char ∧ c ≠ "x"%char ∧ c ≠ "X"%char.
Proof.
  intros [d Hd]. split_and!; try (intros ->; by vm_compute in Hd);
    unfold Json.digit_val in Hd; unfold Str.is_white;
    destruct (48 <=? Str.code c)%nat eqn:H1; try done;
    destruct (Str.code c <=? 57)%nat eqn:H2; try done;
    apply Nat.leb_le in H1, H2; [|lia].
  rewrite orb_false_iff, andb_false_iff. split.
  - right. apply Nat.leb_gt. lia.
  - apply Nat.eqb_neq. lia.
Qed.

(** A character of ASCII that is no white space stops [trimStart]. *)
Lemma strip_head c r :
  Str.is_white c = false → (Str.code c < 128)%nat →
  Str.strip true (c :: r) = c :: r.
Proof.
  intros Hw Hc. simpl. rewrite Hw. destruct r as [|b r2]; [done|].
  assert (Str.white2 c b = false) as ->.
  { unfold Str.white2. apply not_true_iff_false. bool_to_prop. lia. }
  destruct r2 as [|c' r3]; [done|].
  assert (Str.white3 c b c' = false) as ->; [|done].
  unfold Str.white3. apply not_true_iff_false. bool_to_prop. lia.
Qed.

Lemma parseInt_digits (neg : bool) (ws l : list ascii) :
  blank ws → digit_start l →
  parseInt (Str.of_chars (ws ++ (if neg then "-"%char :: l else l)))
  = match Json.take_digits Json.digit_val l with
    | ([], _) => None
    | (ds, _) => Some ((if neg then -1 else 1) * Json.digits_value 10 ds)
    end.
Proof.
  intros Hws (c & r & -> & Hc & Hr). unfold parseInt, Str.chars, Str.of_chars.
  rewrite list_ascii_of_string_of_list_ascii.
  unfold Str.trimStart. rewrite (strip_blank _ _ Hws).
  destruct (digit_facts c Hc) as (Hw & Hlt & Hminus & Hplus & _).
  assert (∀ A (a b : A) x r',
            r = x :: r' →
            (if decide (c = "0"%char ∧ (x = "x"%char ∨ x = "X"%char)) then a else b) = b)
    as Hradix.
  { intros A a b x r' ->. case_decide as Hd; [|done].
    destruct Hd as [-> Hx]. destruct Hr as [?|[? ?]]; [done|].
    by destruct Hx. }
  destruct neg.
  - rewrite strip_head by (vm_compute; done || lia).
    cbv beta iota. rewrite decide_True by done. cbv beta iota zeta.
    destruct r as [|x r']; [done|]. by rewrite (Hradix _ _ _ x r' eq_refl).
  - rewrite (strip_head c r Hw Hlt). cbv beta iota.
    rewrite decide_False by done. rewrite decide_False by done. cbv beta iota zeta.
    destruct r as [|x r']; [done|]. by rewrite (Hradix _ _ _ x r' eq_refl).
Qed.

Lemma to_uint_chars p :
  Str.chars (DecimalString.NilZero.string_of_uint (Pos.to_uint p))
  = uint_chars (Pos.to_uint p).
Proof.
  pose proof (DecimalPos.Unsigned.to_uint_nonnil p) as Hnil.
  unfold uint_chars. by destruct (Pos.to_uint p).
Qed.

Lemma to_uint_not_zero p : Pos.to_uint p ≠ Decimal.D0 Decimal.Nil.
Proof.
  intros Hp. pose proof (DecimalPos.Unsigned.of_to p) as Hof.
  by rewrite Hp in Hof.
Qed.

(** [parseInt] reads the decimal text of an integer, after white space
    and before a text that does not continue it. *)
Lemma parseInt_number (ws : list ascii) (n : Z) (rest : list ascii) :
  blank ws →
  match rest with
  | [] => True
  | c :: _ => Json.digit_val c = None ∧ (n = 0 → c ≠ "x"%char ∧ c ≠ "X"%char)
  end →
  parseInt (Str.of_chars (ws ++ Str.chars (Number_toString n) ++ rest)) = Some n.
Proof.
  intros Hws Hrest.
  assert (match rest with [] => True | c :: _ => Json.digit_val c = None end) as Hdigit.
  { destruct rest; [done|]. by destruct Hrest. }
  unfold Number_toString. destruct n as [|p|p].
  - change (Str.chars _) with (uint_chars (Decimal.D0 Decimal.Nil)).
    rewrite (parseInt_digits false ws _ Hws).
    + by rewrite take_digits_uint.
    + apply uint_chars_start; [done|]. destruct rest; [done|].
      intros _. by apply Hrest.
  - simpl Z.to_int. cbn [DecimalString.NilZero.string_of_int].
    rewrite to_uint_chars.
    pose proof (DecimalPos.Unsigned.to_uint_nonnil p) as Hnil.
    rewrite (parseInt_digits false ws _ Hws).
    + rewrite take_digits_uint, digits_value_uint, DecimalPos.Unsigned.of_to by done.
      destruct (Pos.to_uint p); done.
    + apply uint_chars_start; [done|]. destruct rest; [done|].
      intros Hz. by destruct (to_uint_not_zero p).
  - simpl Z.to_int. cbn [DecimalString.NilZero.string_of_int].
    change (Str.chars (String "-" ?s)) with ("-"%char :: Str.chars s).
    rewrite to_uint_chars.
    pose proof (DecimalPos.Unsigned.to_uint_nonnil p) as Hnil.
    change (("-"%char :: ?l) ++ rest)%list with ("-"%char :: (l ++ rest))%list.
    rewrite (parseInt_digits true ws _ Hws).
    + rewrite take_digits_uint, digits_value_uint, DecimalPos.Unsigned.of_to by done.
      destruct (Pos.to_uint p); done.
    + apply uint_chars_start; [done|]. destruct rest; [done|].
      intros Hz. by destruct (to_uint_not_zero p).
Qed.

Lemma chars_app a b : Str.chars (a +:+ b) = (Str.chars a ++ Str.chars b)%list.
Proof.
  induction a as [|c a IH]; [done|].
  change (String c a +:+ b) with (String c (a +:+ b)).
  unfold Str.chars in *. simpl. by rewrite IH.
Qed.

Lemma of_chars_chars s : Str.of_chars (Str.chars s) = s.
Proof. apply string_of_list_ascii_of_string. Qed.

Lemma parseInt_leading_number (ws : string) (n : Z) (rest : string) :
  blank (Str.chars ws) → ends_number n rest →
  parseInt (ws +:+ Number_toString n +:+ rest) = Some n.
Proof.
  intros Hws Hrest.
  rewrite <- (of_chars_chars (ws +:+ Number_toString n +:+ rest)), !chars_app.
  apply parseInt_number; [done|]. by destruct rest.
Qed.

Lemma parseInt_toString (n : Z) : parseInt (Number_toString n) = Some n.
Proof.
  rewrite <- (of_chars_chars (Number_toString n)).
  rewrite <- (app_nil_r (Str.chars (Number_toString n))).
  apply (parseInt_number [] n []); [constructor | done].
Qed.

Lemma list_find_parseInt param param' posts :
  parseInt param = parseInt param' →
  list_find (id_matches param) posts = list_find (id_matches param') posts.
Proof.
  intros Heq. induction posts as [|p posts IH]; [done|]. simpl.
  rewrite IH. unfold id_matches in *.
  repeat case_decide; done || congruence.
Qed.

(** ** C6 and C7: what a successful create leaves behind *)

Lemma post_posts_created e req w p :
  (post_posts e req w).1 = json 201 (BodyPost p) →
  ∃ posts,
    doc w = Some posts
    ∧ doc (post_posts e req w).2 = Some (p :: posts)
    ∧ id p = now_ms e.
Proof.
  intros Hr. destruct (post_posts_doc e req w)
    as [(posts & p' & Hdoc & Hr' & Hid & Hdoc' & _)|(Hst & _)].
  - rewrite Hr in Hr'. injection Hr' as <-. by exists posts.
  - by rewrite Hr in Hst.
Qed.

(** C6: when creating A and then B both succeed, the list that
    GET /api/posts returns starts with B, then A, followed by what the
    collection held before; from an empty collection it is [B, A]. *)
Theorem C6_newest_first (eA eB : Env) (reqA reqB : CreateReq) (w : World) (A B : Post) :
  let wA := (post_posts eA reqA w).2 in
  let wB := (post_posts eB reqB wA).2 in
  (post_posts eA reqA w).1 = json 201 (BodyPost A) →
  (post_posts eB reqB wA).1 = json 201 (BodyPost B) →
  ∃ before,
    doc w = Some before
    ∧ get_posts wB = (json 200 (BodyPosts (B :: A :: before)), wB).
Proof.
  intros wA wB (before & Hdoc & HdocA & _)%post_posts_created
    (posts & HdocA' & HdocB & _)%post_posts_created.
  fold wA in HdocA. rewrite HdocA in HdocA'. injection HdocA' as <-.
  exists before. split; [done|]. rewrite get_posts_run. fold wB in HdocB. by rewrite HdocB.
Qed.

Lemma C6_newest_first_witness :
  ∃ A B wB,
    get_posts wB = (json 200 (BodyPosts [B; A]), wB)
    ∧ title A = JString "Trip" ∧ title B = JString "Clip".
Proof.
  pose (A := newPost_of env0 trip_req (stored_as env0 jpeg_part) (JArray [])).
  pose (B := newPost_of second_env second_req
               (stored_as second_env {| originalname := "clip.mp4"; mimetype := "video/mp4"; size := 1024; cut_at_limit := false |})
               (JArray [JString "sea"])).
  destruct (C6_newest_first env0 second_env trip_req second_req empty_world A B)
    as (before & Hdoc & Hget).
  - vm_compute. reflexivity.
  - vm_compute. reflexivity.
  - injection Hdoc as <-. eexists A, B, _. split; [exact Hget|]. split; reflexivity.
Defined.

Lemma list_find_head param p posts :
  id_matches param p → list_find (id_matches param) (p :: posts) = Some (0%nat, p).
Proof. intros Hp. simpl. by rewrite decide_True. Qed.

(** C7: after a successful create, GET /api/posts/:id with the decimal
    text of the id of the creation response answers 200 with a post equal
    to that of the creation response, field by field. *)
Theorem C7_create_then_get (e : Env) (req : CreateReq) (w : World) (p : Post) :
  let w' := (post_posts e req w).2 in
  (post_posts e req w).1 = json 201 (BodyPost p) →
  get_post (Number_toString (id p)) w' = (json 200 (BodyPost p), w').
Proof.
  intros w' (posts & _ & Hdoc & _)%post_posts_created.
  rewrite get_post_run. fold w' in Hdoc. rewrite Hdoc.
  rewrite list_find_head; [done|]. apply parseInt_toString.
Qed.

Lemma C7_create_then_get_witness :
  let p := newPost_of second_env second_req
             (stored_as second_env {| originalname := "clip.mp4"; mimetype := "video/mp4"; size := 1024; cut_at_limit := false |})
             (JArray [JString "sea"]) in
  let w' := (post_posts second_env second_req empty_world).2 in
  get_post "1700000000123" w' = (json 200 (BodyPost p), w')
  ∧ externalLink p = JString "https://example.org".
Proof.
  intros p w'. split; [|reflexivity].
  refine (C7_create_then_get second_env second_req empty_world p _).
  vm_compute. reflexivity.
Defined.

(** ** C8: the frame of an update *)

(** C8: an update leaves the content directory alone and keeps the number
    and the order of the posts; every post keeps its [id], [type] and
    [url], and every post other than the targeted one (the first whose id
    matches) is unchanged. *)
Theorem C8_update_frame (param : string) (b : UpdateBody) (w : World) (posts : list Post) :
  doc w = Some posts →
  let w' := (put_post param b w).2 in
  files w' = files w
  ∧ ∃ posts',
      doc w' = Some posts'
      ∧ length posts' = length posts
      ∧ ∀ j q, posts !! j = Some q →
          ∃ q', posts' !! j = Some q'
                ∧ id q' = id q ∧ type q' = type q ∧ url q' = url q
                ∧ (fst <$> list_find (id_matches param) posts ≠ Some j → q' = q).
Proof.
  intros Hdoc w'.
  destruct (put_post_frame param b w posts Hdoc) as (Hfiles & posts' & Hdoc' & Hlen & Hframe).
  split; [done|]. exists posts'. split; [done|]. split; [done|].
  intros j q Hq. destruct (Hframe j q Hq) as (q' & Hq' & (Hid & Htype & Hurl) & Hother).
  exists q'. by split_and!.
Qed.

Lemma C8_update_frame_witness :
  let other := set_title (JString "Other") (set_externalLink (JString "x") trip_post) in
  let older := {| id := 1600000000000; type := video; url := "/uploads/1-2.mp4";
                  title := JString "Old"; description := JString "Clip";
                  date := JString "2020-09-13"; tags := JArray []; externalLink := JNull |} in
  let w := {| doc := Some [other; older]; doc_writes := 3; files := ∅ |} in
  let b := {| u_title := Some (JString "New"); u_description := None; u_date := None;
              u_tags := Some (JArray [JString "t"]); u_externalLink := Some JNull |} in
  ∃ posts',
    doc (put_post "1700000000000" b w).2 = Some posts'
    ∧ length posts' = 2%nat
    ∧ posts' !! 1%nat = Some older.
Proof.
  intros other older w b.
  destruct (C8_update_frame "1700000000000" b w [other; older] eq_refl)
    as (_ & posts' & Hdoc & Hlen & Hframe).
  exists posts'. split; [exact Hdoc|]. split; [exact Hlen|].
  destruct (Hframe 1%nat older eq_refl) as (q' & Hq' & _ & _ & _ & Hsame).
  rewrite Hq'. f_equal. apply Hsame. vm_compute. discriminate.
Defined.

(** ** C9: ids that are not numbers *)

(** C9, as stated, fails: an id that starts with the digits of a stored id
    and goes on with letters is not numeric, yet it is matched: GET
    answers 200 with the post and DELETE removes it. *)
Lemma C9_digit_prefix_matches :
  numeric "1700000000000abc" = false
  ∧ get_post "1700000000000abc" trip_world = (json 200 (BodyPost trip_post), trip_world)
  ∧ status (delete_post "1700000000000abc" trip_world).1 = 200%nat
  ∧ doc (delete_post "1700000000000abc" trip_world).2 = Some [].
Proof. by vm_compute. Qed.

Lemma list_find_nan param posts :
  parseInt param = None → list_find (id_matches param) posts = None.
Proof.
  intros Hnan. apply list_find_None, Forall_forall. intros p _.
  unfold id_matches. by rewrite Hnan.
Qed.

(** C9, amended: the id path parameter is read by [parseInt].  When
    [parseInt] finds no number in the id, no post of a readable document
    matches it, and GET, PUT and DELETE answer 404 and change nothing.
    When the id is, after white space, the decimal text of a safe integer
    followed by a text that does not continue it, [parseInt] reads that
    integer and ignores the rest, letters included: the three handlers do
    what they do for the decimal text alone. *)
Theorem C9_nan_not_found (param : string) (b : UpdateBody) (w : World) (posts : list Post) :
  doc w = Some posts →
  (parseInt param = None →
     (∀ p, p ∈ posts → ¬ id_matches param p)
     ∧ get_post param w = (json 404 (BodyError "Post non trovato"), w)
     ∧ put_post param b w = (json 404 (BodyError "Post non trovato"), w)
     ∧ delete_post param w = (json 404 (BodyError "Post non trovato"), w))
  ∧ (∀ ws n rest,
       param = ws +:+ Number_toString n +:+ rest →
       blank (Str.chars ws) → safe_integer n → ends_number n rest →
       parseInt param = Some n
       ∧ get_post param w = get_post (Number_toString n) w
       ∧ put_post param b w = put_post (Number_toString n) b w
       ∧ delete_post param w = delete_post (Number_toString n) w).
Proof.
  intros Hdoc. split.
  - intros Hnan. split.
    + intros p _. unfold id_matches. by rewrite Hnan.
    + rewrite get_post_run, put_post_run, delete_post_run, Hdoc.
      by rewrite (list_find_nan param posts Hnan).
  - intros ws n rest -> Hws _ Hrest.
    pose proof (parseInt_leading_number ws n rest Hws Hrest) as Hn.
    split; [done|].
    rewrite !get_post_run, !put_post_run, !delete_post_run, Hdoc.
    by rewrite (list_find_parseInt _ (Number_toString n) posts)
      by (by rewrite Hn, parseInt_toString).
Qed.

Lemma C9_nan_not_found_witness :
  (get_post "abc" trip_world = (json 404 (BodyError "Post non trovato"), trip_world)
   ∧ delete_post "abc" trip_world = (json 404 (BodyError "Post non trovato"), trip_world))
  ∧ parseInt (nbsp +:+ "1700000000000abc") = Some 1700000000000
  ∧ get_post (nbsp +:+ "1700000000000abc") trip_world
    = get_post "1700000000000" trip_world.
Proof.
  pose (b := {| u_title := None; u_description := None; u_date := None;
                u_tags := None; u_externalLink := None |}).
  split.
  - destruct (proj1 (C9_nan_not_found "abc" b trip_world [trip_post] eq_refl))
      as (_ & Hget & _ & Hdel).
    + vm_compute. reflexivity.
    + split; [exact Hget | exact Hdel].
  - destruct (proj2 (C9_nan_not_found (nbsp +:+ "1700000000000abc") b trip_world
                       [trip_post] eq_refl) nbsp 1700000000000 "abc")
      as (Hn & Hget & _).
    + reflexivity.
    + exact (blank_2 (Str.byte 194) (Str.byte 160) [] eq_refl blank_nil).
    + split; reflexivity.
    + split; [reflexivity|]. intros Hz. discriminate Hz.
    + split; [exact Hn | exact Hget].
Defined.

(** ** C10: refused requests do not write the document *)

(** C10: when GET, PUT or DELETE on /api/posts/:id answers 404, or POST
    /api/posts answers 400, the document is not written and holds what
    it held before the request. *)
Theorem C10_refused_requests_do_not_write (rq : Request) (w : World) :
  refused rq (handle rq w).1 →
  doc (handle rq w).2 = doc w ∧ doc_writes (handle rq w).2 = doc_writes w.
Proof.
  destruct rq as [|param|e req|param b|param]; simpl; [done|..].
  - rewrite get_post_run. destruct (doc w) as [posts|] eqn:Hdoc;
      [destruct (list_find _ posts) as [[i p]|]|]; simpl; by rewrite Hdoc.
  - intros Hst. destruct (post_posts_doc e req w)
      as [(posts & p & _ & Hr & _)|(_ & Hdoc & Hwrites)]; [|done].
    by rewrite Hr in Hst.
  - rewrite put_post_run. destruct (doc w) as [posts|] eqn:Hdoc;
      [destruct (list_find _ posts) as [[i p]|];
       [destruct (apply_update b p w).1|]|]; simpl; try done; by rewrite Hdoc.
  - rewrite delete_post_run. destruct (doc w) as [posts|] eqn:Hdoc;
      [destruct (list_find _ posts) as [[i p]|];
       [cbv zeta; destruct (files w !! _) as [[|]|]|]|]; simpl; try done;
      by rewrite Hdoc.
Qed.

Lemma C10_refused_requests_do_not_write_witness :
  let req := {| file := Some jpeg_part; c_title := None; c_description := Some "Summer";
                c_date := None; c_tags := None; c_externalLink := None |} in
  doc (post_posts env0 req trip_world).2 = Some [trip_post]
  ∧ doc_writes (post_posts env0 req trip_world).2 = 0%nat.
Proof.
  intros req.
  refine (C10_refused_requests_do_not_write (PostPosts env0 req) trip_world _).
  vm_compute. reflexivity.
Defined.

(** * Further properties of the handlers *)

Lemma parse_tags_run t w :
  (parse_tags t w).1
  = match tags_value t with Some v => Ok v | None => Throw "SyntaxError" end.
Proof.
  unfold parse_tags, tags_value. destruct t as [text|]; [|done].
  destruct (Str.nonempty text); [|done]. by destruct (Json.parse text).
Qed.








(** X3: a request writes the document exactly once when it answers with
    its success status (201 for a create, 200 for an update or a delete);
    with any other answer, and for every GET, the document is neither
    written nor changed. *)
Theorem X3_written_iff_succeeded (rq : Request) (w : World) :
  let r := handle rq w in
  (succeeded rq r.1 → doc_writes r.2 = S (doc_writes w))
  ∧ (¬ succeeded rq r.1 → doc r.2 = doc w ∧ doc_writes r.2 = doc_writes w).
Proof.
  destruct rq as [|param|e req|param b|param]; simpl.
  - split; [done|]. intros _. rewrite get_posts_run.
    destruct (doc w) eqn:Hdoc; simpl; by rewrite Hdoc.
  - split; [done|]. intros _. rewrite get_post_run.
    destruct (doc w) as [posts|] eqn:Hdoc;
      [destruct (list_find _ posts) as [[i p]|]|]; simpl; by rewrite Hdoc.
  - destruct (post_posts_doc e req w)
      as [(posts & p & _ & Hr & _ & _ & Hwrites)|(Hst & Hdoc & Hwrites)].
    + split; [done|]. rewrite Hr. simpl. done.
    + split; done.
  - rewrite put_post_run. destruct (doc w) as [posts|] eqn:Hdoc;
      [destruct (list_find _ posts) as [[i p]|];
       [destruct (apply_update b p w).1|]|]; simpl; split; try done;
      intros _; by rewrite Hdoc.
  - rewrite delete_post_run. destruct (doc w) as [posts|] eqn:Hdoc;
      [destruct (list_find _ posts) as [[i p]|];
       [cbv zeta; destruct (files w !! _) as [[|]|]|]|]; simpl; split; try done;
      intros _; by rewrite Hdoc.
Qed.

Lemma X3_written_iff_succeeded_witness :
  doc_writes (put_post "1700000000000" empty_tags tagged_world).2 = 1%nat
  ∧ doc_writes (delete_post "abc" tagged_world).2 = 0%nat.
Proof.
  split.
  - refine (proj1 (X3_written_iff_succeeded (PutPost "1700000000000" empty_tags)
                     tagged_world) _).
    vm_compute. reflexivity.
  - refine (proj2 (proj2 (X3_written_iff_succeeded (DeletePost "abc") tagged_world) _)).
    vm_compute. discriminate.
Defined.

(** X4: while the document cannot be read, no request repairs or replaces
    it: GET, PUT and DELETE answer 500 and change nothing, and a POST
    answers 400 or 500 and leaves the document unreadable. *)
Theorem X4_unreadable_document (rq : Request) (w : World) :
  doc w = None →
  doc (handle rq w).2 = None
  ∧ doc_writes (handle rq w).2 = doc_writes w
  ∧ match rq with
    | PostPosts _ _ =>
        status (handle rq w).1 = 400%nat ∨ status (handle rq w).1 = 500%nat
    | _ => status (handle rq w).1 = 500%nat ∧ (handle rq w).2 = w
    end.
Proof.
  intros Hdoc. destruct rq as [|param|e req|param b|param]; simpl.
  - rewrite get_posts_run, Hdoc. simpl. by rewrite Hdoc.
  - rewrite get_post_run, Hdoc. simpl. by rewrite Hdoc.
  - rewrite post_posts_run.
    destruct (file req) as [f|]; [|simpl; rewrite Hdoc; auto].
    destruct (fileFilter f); [|simpl; rewrite Hdoc; auto]. cbv zeta.
    destruct (truncated f); [simpl; rewrite Hdoc; auto|].
    destruct (required_missing req); simpl; rewrite Hdoc; simpl; rewrite ?Hdoc; auto.
  - rewrite put_post_run, Hdoc. simpl. by rewrite Hdoc.
  - rewrite delete_post_run, Hdoc. simpl. by rewrite Hdoc.
Qed.

Lemma X4_unreadable_document_witness :
  let w := {| doc := None; doc_writes := 4; files := ∅ |} in
  doc (post_posts env0 trip_req w).2 = None
  ∧ doc_writes (post_posts env0 trip_req w).2 = 4%nat
  ∧ (status (post_posts env0 trip_req w).1 = 400%nat
     ∨ status (post_posts env0 trip_req w).1 = 500%nat).
Proof.
  intros w. exact (X4_unreadable_document (PostPosts env0 trip_req) w eq_refl).
Defined.

Lemma post_posts_success e req w p :
  (post_posts e req w).1 = json 201 (BodyPost p) →
  ∃ f posts tags,
    file req = Some f
    ∧ fileFilter f = true
    ∧ required_missing req = false
    ∧ doc w = Some posts
    ∧ tags_value (c_tags req) = Some tags
    ∧ p = newPost_of e req (stored_as e f) tags
    ∧ (post_posts e req w).2
      = {| doc := Some (p :: posts); doc_writes := S (doc_writes w);
           files := <[in_cwd (path (stored_as e f)) := Plain]> (files w) |}.
Proof.
  rewrite post_posts_run. destruct (file req) as [f|] eqn:Hfile; [|done].
  destruct (fileFilter f) eqn:Hff; [|done]. cbv zeta.
  destruct (truncated f); [done|].
  destruct (required_missing req) eqn:Hreq; [done|].
  destruct (doc w) as [posts|] eqn:Hdoc; [|done]. rewrite parse_tags_run.
  destruct (tags_value (c_tags req)) as [tags|] eqn:Htags; [|done].
  simpl. intros [= <-]. exists f, posts, tags. by split_and!.
Qed.


Lemma stored_url e f :
  join_dirname ("/uploads/" +:+ filename (stored_as e f)) = in_cwd (path (stored_as e f)).
Proof. reflexivity. Qed.



(** X6: deleting the post that was just created, by the decimal text of
    its id, answers 200, gives back the collection as it was before the
    create and removes the stored file; when no file had the generated
    name before, the content directory is as it was as well. *)
Theorem X6_create_then_delete (e : Env) (req : CreateReq) (w : World) (p : Post) :
  (post_posts e req w).1 = json 201 (BodyPost p) →
  let r := delete_post (Number_toString (id p)) (post_posts e req w).2 in
  status r.1 = 200%nat
  ∧ doc r.2 = doc w
  ∧ files r.2 = delete (join_dirname (url p)) (files w)
  ∧ (files w !! join_dirname (url p) = None → files r.2 = files w).
Proof.
  intros (f & posts & tgs & _ & _ & _ & Hdoc & _ & Hp & Hw)%post_posts_success r.
  subst r. rewrite Hw, delete_post_run. cbn [doc].
  rewrite (list_find_head _ p posts) by apply parseInt_toString. cbv zeta.
  assert (join_dirname (url p) = in_cwd (path (stored_as e f))) as Hurl
    by (rewrite Hp; apply stored_url).
  rewrite Hurl. cbn [files]. rewrite lookup_insert_eq. cbn [fst snd status json doc files].
  rewrite delete_insert_eq. split_and!; try done. apply delete_id.
Qed.

Lemma X6_create_then_delete_witness :
  let r := delete_post "1700000000000" (post_posts env0 trip_req empty_world).2 in
  status r.1 = 200%nat ∧ doc r.2 = Some [] ∧ files r.2 = ∅.
Proof.
  intros r.
  destruct (X6_create_then_delete env0 trip_req empty_world trip_post)
    as (Hst & Hdoc & _ & Hfiles).
  - vm_compute. reflexivity.
  - split; [exact Hst|]. split; [exact Hdoc|]. apply Hfiles. reflexivity.
Defined.

Lemma list_find_insert param (posts : list Post) i p p' :
  list_find (id_matches param) posts = Some (i, p) →
  id p' = id p →
  list_find (id_matches param) (<[i := p']> posts) = Some (i, p').
Proof.
  intros (Hi & Hp & Hfirst)%list_find_Some Hid. apply list_find_Some.
  split; [by rewrite list_lookup_insert_eq by (by eapply lookup_lt_Some)|].
  split; [unfold id_matches in *; by rewrite Hid|].
  intros j q Hq Hj. rewrite list_lookup_insert_ne in Hq by lia. by eapply Hfirst.
Qed.

Lemma put_post_success param b w p' :
  (put_post param b w).1 = json 200 (BodyPost p') →
  ∃ posts i p,
    doc w = Some posts
    ∧ list_find (id_matches param) posts = Some (i, p)
    ∧ (apply_update b p w).1 = Ok p'
    ∧ (put_post param b w).2
      = {| doc := Some (<[i := p']> posts); doc_writes := S (doc_writes w);
           files := files w |}.
Proof.
  rewrite put_post_run. destruct (doc w) as [posts|]; [|done].
  destruct (list_find _ posts) as [[i p]|] eqn:Hfind; [|done].
  destruct (apply_update b p w).1 as [q|] eqn:Hup; [|done].
  simpl. intros [= <-]. by exists posts, i, p.
Qed.

(** X7: after an update that answered 200, GET /api/posts/:id with the
    same parameter answers 200 with the post of the update response. *)
Theorem X7_update_then_get (param : string) (b : UpdateBody) (w : World) (p' : Post) :
  (put_post param b w).1 = json 200 (BodyPost p') →
  let w' := (put_post param b w).2 in
  get_post param w' = (json 200 (BodyPost p'), w').
Proof.
  intros (posts & i & p & _ & Hfind & Hup & Hw)%put_post_success w'.
  subst w'. rewrite Hw, get_post_run. cbn [doc].
  rewrite (list_find_insert _ _ _ _ p' Hfind); [done|].
  by apply apply_update_identity in Hup as [? _].
Qed.

Lemma X7_update_then_get_witness :
  let w' := (put_post "1700000000000" empty_tags tagged_world).2 in
  get_post "1700000000000" w' = (json 200 (BodyPost trip_post), w').
Proof.
  intros w'.
  refine (X7_update_then_get "1700000000000" empty_tags tagged_world trip_post _).
  vm_compute. reflexivity.
Defined.

Lemma normalizeLink_result o w w' : (normalizeLink o w).1 = (normalizeLink o w').1.
Proof.
  destruct o as [v|]; [|done]. unfold normalizeLink.
  destruct (truthy v); [|done]. destruct v; try done.
  unfold mbind, M_bind. simpl. by destruct (Str.nonempty (Str.trim s)).
Qed.

Lemma apply_update_twice b p w w' p' :
  (apply_update b p w).1 = Ok p' → (apply_update b p' w').1 = Ok p'.
Proof.
  rewrite !apply_update_run.
  assert (∀ q l,
            title q = assigned (u_title b) (title p) →
            description q = assigned (u_description b) (description p) →
            date q = assigned (u_date b) (date p) →
            tags q = assigned (u_tags b) (tags p) →
            externalLink q = l →
            set_externalLink l (metadata_updated b q) = q) as Hfix.
  { intros q l Ht Hd Hda Hta Hl.
    destruct (metadata_updated_fields b q) as (Ht' & Hd' & Hda' & Hta' & Hl').
    assert (same_identity (metadata_updated b q) q) as (Hid & Hty & Hurl).
    { unfold metadata_updated.
      do 3 (eapply same_identity_trans;
            [apply if_truthy_identity; intros; by repeat split|]).
      apply if_truthy_identity; intros; by repeat split. }
    assert (∀ v old, assigned v (assigned v old) = assigned v old) as Hidem.
    { intros v old. unfold assigned. by destruct (supplied_truthy v). }
    destruct q as [qi qt qu qti qd qda qta ql]. unfold set_externalLink. simpl in *.
    rewrite Hid, Hty, Hurl, Ht', Hd', Hda', Hta', Ht, Hd, Hda, Hta, !Hidem, Hl.
    done. }
  destruct (metadata_updated_fields b p) as (Ht & Hd & Hda & Hta & Hl).
  destruct (u_externalLink b) as [v|].
  - rewrite (normalizeLink_result _ w' w).
    destruct (normalizeLink (Some v) w).1 as [l|err]; [|done].
    intros [= <-]. f_equal. by apply Hfix.
  - intros [= <-]. f_equal.
    rewrite <- (Hfix (metadata_updated b p) (externalLink (metadata_updated b p))) at 2
      by done.
    destruct (metadata_updated_fields b (metadata_updated b p)) as (_ & _ & _ & _ & Hl').
    symmetry. rewrite <- Hl' at 1. by destruct (metadata_updated b (metadata_updated b p)).
Qed.

(** X8: an update is idempotent: sending the same update a second time
    gives the same answer and leaves the collection and the content
    directory as the first left them. *)
Theorem X8_update_idempotent (param : string) (b : UpdateBody) (w : World) :
  let w1 := (put_post param b w).2 in
  (put_post param b w1).1 = (put_post param b w).1
  ∧ doc (put_post param b w1).2 = doc w1
  ∧ files (put_post param b w1).2 = files w1.
Proof.
  intros w1. subst w1. rewrite (put_post_run param b w).
  destruct (doc w) as [posts|] eqn:Hdoc.
  2:{ simpl. rewrite put_post_run, Hdoc. simpl. by rewrite Hdoc. }
  destruct (list_find _ posts) as [[i p]|] eqn:Hfind.
  2:{ simpl. rewrite put_post_run, Hdoc, Hfind. simpl. by rewrite Hdoc. }
  destruct (apply_update b p w).1 as [p'|err] eqn:Hup.
  2:{ simpl. rewrite put_post_run, Hdoc, Hfind, Hup. simpl. by rewrite Hdoc. }
  simpl. rewrite put_post_run. cbn [doc].
  rewrite (list_find_insert _ _ _ _ p' Hfind)
    by (by apply apply_update_identity in Hup as [? _]).
  rewrite (apply_update_twice _ _ _ _ _ Hup). simpl.
  by rewrite list_insert_insert_eq.
Qed.

Lemma delete_post_success param w :
  status (delete_post param w).1 = 200%nat →
  ∃ posts i p,
    doc w = Some posts
    ∧ list_find (id_matches param) posts = Some (i, p)
    ∧ (delete_post param w).2
      = {| doc := Some (delete i posts); doc_writes := S (doc_writes w);
           files := delete (join_dirname (url p)) (files w) |}.
Proof.
  rewrite delete_post_run. destruct (doc w) as [posts|] eqn:Hdoc; [|done].
  destruct (list_find _ posts) as [[i p]|] eqn:Hfind; [|done]. cbv zeta.
  destruct (files w !! _) as [[|]|]; [|done|]; intros _; by exists posts, i, p.
Qed.

Lemma list_find_delete_unique param (posts : list Post) i p :
  NoDup (id <$> posts) →
  list_find (id_matches param) posts = Some (i, p) →
  list_find (id_matches param) (delete i posts) = None.
Proof.
  intros Hnd (Hi & Hp & _)%list_find_Some.
  apply list_find_None, Forall_forall. intros q Hq Hmatch.
  apply list_elem_of_lookup in Hq as [j Hj].
  assert (id q = id p) as Hid by (unfold id_matches in *; congruence).
  assert (∃ k, k ≠ i ∧ posts !! k = Some q) as (k & Hk & Hkq).
  { destruct (decide (j < i)%nat).
    - exists j. split; [lia|]. by rewrite list_lookup_delete_lt in Hj.
    - exists (S j). split; [lia|]. by rewrite list_lookup_delete_ge in Hj by lia. }
  apply Hk. eapply (NoDup_lookup _ k i (id p) Hnd).
  - by rewrite list_lookup_fmap, Hkq, <- Hid.
  - by rewrite list_lookup_fmap, Hi.
Qed.

(** X9: when the ids of the collection are pairwise different, a DELETE
    that answered 200 leaves a collection in which its id is not found
    any more: GET, PUT and a second DELETE with the same parameter answer
    404; the backing file of the deleted post does not exist afterwards. *)
Theorem X9_delete_then_not_found (param : string) (b : UpdateBody) (w : World)
    (posts : list Post) :
  doc w = Some posts →
  NoDup (id <$> posts) →
  status (delete_post param w).1 = 200%nat →
  let w' := (delete_post param w).2 in
  get_post param w' = (json 404 (BodyError "Post non trovato"), w')
  ∧ put_post param b w' = (json 404 (BodyError "Post non trovato"), w')
  ∧ delete_post param w' = (json 404 (BodyError "Post non trovato"), w')
  ∧ ∀ i p, list_find (id_matches param) posts = Some (i, p) →
      files w' !! join_dirname (url p) = None.
Proof.
  intros Hdoc Hnd (posts' & i & p & Hdoc' & Hfind & Hw)%delete_post_success w'.
  subst w'. rewrite Hdoc in Hdoc'. injection Hdoc' as <-. rewrite Hw.
  rewrite get_post_run, put_post_run, delete_post_run. cbn [doc files].
  rewrite (list_find_delete_unique _ _ _ _ Hnd Hfind).
  split_and!; try done. intros i' p' Hf. rewrite Hfind in Hf.
  injection Hf as _ <-. apply lookup_delete_eq.
Qed.

Lemma X9_delete_then_not_found_witness :
  let w' := (delete_post "1700000000000" trip_world).2 in
  get_post "1700000000000" w' = (json 404 (BodyError "Post non trovato"), w')
  ∧ files w' !! "/uploads/1699999999990-123456789.JPG" = None.
Proof.
  intros w'.
  destruct (X9_delete_then_not_found "1700000000000" no_fields trip_world [trip_post] eq_refl)
    as (Hget & _ & _ & Hfile).
  - apply (bool_decide_unpack _). vm_compute. exact I.
  - vm_compute. reflexivity.
  - split; [exact Hget|]. apply (Hfile 0%nat trip_post). vm_compute. reflexivity.
Defined.

Lemma descending_sublist (l k : list Z) :
  l `sublist_of` k → descending k → descending l.
Proof.
  unfold descending. induction 1 as [|x l k Hsub IH|x l k Hsub IH]; intros Hk.
  - constructor.
  - apply StronglySorted_inv in Hk as [Hk Hall]. constructor; [by apply IH|].
    rewrite Forall_forall in Hall |- *. intros y Hy. apply Hall.
    by eapply elem_of_sublist.
  - apply StronglySorted_inv in Hk as [Hk _]. by apply IH.
Qed.

Lemma run_descending ops : ∀ w,
  descending (ids w) →
  StronglySorted Z.lt (create_times ops) →
  (∀ i t, i ∈ ids w → t ∈ create_times ops → i < t) →
  descending (ids (run ops w)).
Proof.
  induction ops as [|o ops IH]; intros w Hdesc Htimes Hbelow; simpl; [done|].
  destruct (ids_step w o) as [(e & req & -> & Hids)|Hsub].
  - simpl in *. apply StronglySorted_inv in Htimes as [Htimes Hnow].
    rewrite Forall_forall in Hnow. apply IH; [|done|].
    + rewrite Hids. constructor; [done|]. apply Forall_forall.
      intros i Hi. apply Hbelow; [done|by left].
    + intros i t. rewrite Hids. intros [->|Hi]%elem_of_cons Ht.
      * by apply Hnow.
      * apply Hbelow; [done|by right].
  - assert (∀ t, t ∈ create_times ops → t ∈ create_times (o :: ops)) as Hmono.
    { intros t Ht. destruct o; simpl; [by right|done..]. }
    apply IH.
    + by eapply descending_sublist.
    + destruct o; simpl in Htimes; [by apply StronglySorted_inv in Htimes as [? _]|done..].
    + intros i t Hi Ht. apply Hbelow; [by eapply elem_of_sublist|by apply Hmono].
Qed.

(** X10: when the create requests of a sequence of operations read
    strictly increasing clock values, the collection that results from an
    empty one lists its ids from the largest to the smallest: the newest
    post comes first, whatever updates and deletes come in between. *)
Theorem X10_ids_descending (ops : list Op) (w0 : World) :
  doc w0 = Some [] →
  StronglySorted Z.lt (create_times ops) →
  descending (ids (run ops w0)).
Proof.
  intros Hdoc Htimes.
  assert (ids w0 = []) as Hempty by (unfold ids; by rewrite Hdoc).
  apply run_descending; [|done|].
  - rewrite Hempty. constructor.
  - intros i t. rewrite Hempty. by intros ?%elem_of_nil.
Qed.

Lemma X10_ids_descending_witness :
  descending (ids (run [Create env0 trip_req; Update "1700000000000" empty_tags;
                        Create second_env second_req] empty_world)).
Proof.
  refine (X10_ids_descending _ empty_world eq_refl _).
  apply (bool_decide_unpack _). vm_compute. exact I.
Defined.

Lemma strip_cons fwd a r1 :
  Str.strip fwd (a :: r1) =
  if Str.is_white a then Str.strip fwd r1
  else
    match r1 with
    | [] => a :: r1
    | b :: r2 =>
        if (if fwd then Str.white2 a b else Str.white2 b a) then Str.strip fwd r2
        else
          match r2 with
          | [] => a :: r1
          | c :: r3 =>
              if (if fwd then Str.white3 a b c else Str.white3 c b a)
              then Str.strip fwd r3 else a :: r1
          end
    end.
Proof. by destruct r1 as [|b [|c r3]]. Qed.

(** What [strip] gives is what follows some removed text, and [strip]
    removes nothing more from it. *)
Lemma strip_facts fwd n : ∀ l,
  (length l ≤ n)%nat →
  (∃ ws, l = (ws ++ Str.strip fwd l)%list)
  ∧ Str.strip fwd (Str.strip fwd l) = Str.strip fwd l.
Proof.
  induction n as [|n IH]; intros l Hl.
  { destruct l; [|simpl in Hl; lia]. split; [by exists []|done]. }
  destruct l as [|a r1]; [split; [by exists []|done]|].
  simpl in Hl. rewrite (strip_cons fwd a r1).
  destruct (Str.is_white a) eqn:Ha.
  { destruct (IH r1) as [[ws Hws] Hidem]; [lia|]. split; [|done].
    exists (a :: ws). simpl. by rewrite <- Hws. }
  destruct r1 as [|b r2].
  { split; [by exists []|]. by rewrite strip_cons, Ha. }
  simpl in Hl.
  destruct (if fwd then Str.white2 a b else Str.white2 b a) eqn:Hab.
  { destruct (IH r2) as [[ws Hws] Hidem]; [lia|]. split; [|done].
    exists (a :: b :: ws). simpl. by rewrite <- Hws. }
  destruct r2 as [|c r3].
  { split; [by exists []|]. by rewrite strip_cons, Ha, Hab. }
  simpl in Hl.
  destruct (if fwd then Str.white3 a b c else Str.white3 c b a) eqn:Habc.
  { destruct (IH r3) as [[ws Hws] Hidem]; [lia|]. split; [|done].
    exists (a :: b :: c :: ws). simpl. by rewrite <- Hws. }
  split; [by exists []|]. by rewrite strip_cons, Ha, Hab, Habc.
Qed.

Lemma strip_split fwd l : ∃ ws, l = (ws ++ Str.strip fwd l)%list.
Proof. by destruct (strip_facts fwd (length l) l). Qed.

Lemma strip_idempotent fwd l : Str.strip fwd (Str.strip fwd l) = Str.strip fwd l.
Proof. by destruct (strip_facts fwd (length l) l). Qed.

Lemma strip_length fwd l : (length (Str.strip fwd l) ≤ length l)%nat.
Proof.
  destruct (strip_split fwd l) as [ws Hws].
  rewrite Hws at 2. rewrite length_app. lia.
Qed.

(** A text from which [strip] removes nothing starts with a text from
    which it removes nothing. *)
Lemma strip_fixed_prefix fwd x y :
  Str.strip fwd (x ++ y)%list = (x ++ y)%list → Str.strip fwd x = x.
Proof.
  assert (∀ r pre, Str.strip fwd r ≠ (pre ++ r)%list ∨ pre = []) as Hshort.
  { intros r pre. destruct pre as [|p pre]; [by right|]. left. intros Heq.
    pose proof (strip_length fwd r) as Hlen. rewrite Heq in Hlen.
    rewrite length_app in Hlen. simpl in Hlen. lia. }
  destruct x as [|a r1]; [done|]. cbn [app].
  rewrite (strip_cons fwd a (r1 ++ y)), (strip_cons fwd a r1).
  destruct (Str.is_white a).
  { intros Heq. by destruct (Hshort (r1 ++ y)%list [a]). }
  destruct r1 as [|b r2]; [done|]. cbn [app].
  destruct (if fwd then Str.white2 a b else Str.white2 b a).
  { intros Heq. by destruct (Hshort (r2 ++ y)%list [a; b]). }
  destruct r2 as [|c r3]; [done|]. cbn [app].
  destruct (if fwd then Str.white3 a b c else Str.white3 c b a); [|done].
  intros Heq. by destruct (Hshort (r3 ++ y)%list [a; b; c]).
Qed.

Lemma trim_idempotent s : Str.trim (Str.trim s) = Str.trim s.
Proof.
  unfold Str.trim, Str.trimEnd, Str.trimStart, Str.of_chars, Str.chars.
  rewrite list_ascii_of_string_of_list_ascii.
  set (l1 := Str.strip true (list_ascii_of_string s)).
  set (m := Str.strip false (rev l1)).
  assert (Str.strip true (rev m) = rev m) as Hrev.
  { destruct (strip_split false (rev l1)) as [ws Hws]. fold m in Hws.
    assert (l1 = (rev m ++ rev ws)%list) as Hl1.
    { by rewrite <- (rev_involutive l1), Hws, rev_app_distr. }
    apply (strip_fixed_prefix true (rev m) (rev ws)).
    rewrite <- Hl1. apply strip_idempotent. }
  rewrite Hrev, rev_involutive. f_equal. f_equal. apply strip_idempotent.
Qed.

Lemma link_of_string_normalized s : normalized_link (link_of_string s).
Proof.
  unfold link_of_string, normalized_link.
  destruct (Str.nonempty (Str.trim s)) eqn:Hne; [|by left].
  right. exists (Str.trim s). split; [done|]. split; [|apply trim_idempotent].
  intros Hempty. by rewrite Hempty in Hne.
Qed.

Lemma normalizeLink_ok o w l :
  (normalizeLink o w).1 = Ok l → normalized_link l.
Proof.
  destruct o as [v|]; [|intros [= <-]; by left].
  destruct (truthy v) eqn:Htruthy.
  - destruct v as [|b|m e|s|items|members]; try done.
    + unfold normalizeLink. by rewrite Htruthy.
    + unfold normalizeLink. by rewrite Htruthy.
    + rewrite normalizeLink_string. intros [= <-]. apply link_of_string_normalized.
  - rewrite normalizeLink_falsy by done. intros [= <-]. by left.
Qed.

(** X11: the link that a successful create stores, and the link that a
    successful update stores when the body supplies [externalLink], is in
    normal form: [null], or a text that is not empty and has no white
    space at either end. *)
Theorem X11_stored_link_normalized (w : World) :
  (∀ e req p, (post_posts e req w).1 = json 201 (BodyPost p) →
     normalized_link (externalLink p))
  ∧ (∀ param b v p', u_externalLink b = Some v →
       (put_post param b w).1 = json 200 (BodyPost p') →
       normalized_link (externalLink p')).
Proof.
  split.
  - intros e req p (f & posts & tgs & _ & _ & _ & _ & _ & -> & _)%post_posts_success.
    simpl. destruct (c_externalLink req) as [s|]; simpl;
      [apply link_of_string_normalized | by left].
  - intros param b v p' Hv (posts & i & p & _ & _ & Hup & _)%put_post_success.
    rewrite apply_update_run, Hv in Hup.
    destruct (normalizeLink (Some v) w).1 as [l|err] eqn:Hnorm; [|done].
    injection Hup as <-. simpl. by eapply normalizeLink_ok.
Qed.

(** ** The extension of a filename *)

Lemma chars_ascii_lower s :
  Str.chars (ascii_lower s) = map Str.lower_char (Str.chars s).
Proof. induction s as [|c s IH]; simpl; [done|]. by rewrite <- IH. Qed.

Lemma of_chars_lower l :
  Str.of_chars (map Str.lower_char l) = ascii_lower (Str.of_chars l).
Proof. induction l as [|c l IH]; simpl; [done|]. by rewrite <- IH. Qed.

Lemma lower_char_slash c : Str.lower_char c = Path.slash ↔ c = Path.slash.
Proof.
  destruct c as [[] [] [] [] [] [] [] []]; vm_compute; split; congruence.
Qed.

Lemma lower_char_dot c : Str.lower_char c = Path.dot ↔ c = Path.dot.
Proof.
  destruct c as [[] [] [] [] [] [] [] []]; vm_compute; split; congruence.
Qed.

Lemma lower_char_idempotent c :
  Str.lower_char (Str.lower_char c) = Str.lower_char c.
Proof. by destruct c as [[] [] [] [] [] [] [] []]. Qed.

(** Lowering an ASCII capital does not change whether a byte is one of
    the bytes of U+0130 or of U+212A. *)
Lemma lower_char_high c :
  ((Str.code (Str.lower_char c) =? 196)%nat = (Str.code c =? 196)%nat)
  ∧ ((Str.code (Str.lower_char c) =? 176)%nat = (Str.code c =? 176)%nat)
  ∧ ((Str.code (Str.lower_char c) =? 226)%nat = (Str.code c =? 226)%nat)
  ∧ ((Str.code (Str.lower_char c) =? 132)%nat = (Str.code c =? 132)%nat)
  ∧ ((Str.code (Str.lower_char c) =? 170)%nat = (Str.code c =? 170)%nat).
Proof. by destruct c as [[] [] [] [] [] [] [] []]. Qed.

Lemma toLowerCase_cons a s1 :
  Str.toLowerCase (String a s1) =
  match s1 with
  | EmptyString => String (Str.lower_char a) EmptyString
  | String b s2 =>
      if (Str.code a =? 196)%nat && (Str.code b =? 176)%nat then
        String "i" (String (Str.byte 204) (String (Str.byte 135) (Str.toLowerCase s2)))
      else
        match s2 with
        | EmptyString => String (Str.lower_char a) (Str.toLowerCase s1)
        | String c s3 =>
            if (Str.code a =? 226)%nat && (Str.code b =? 132)%nat
               && (Str.code c =? 170)%nat
            then String "k" (Str.toLowerCase s3)
            else String (Str.lower_char a) (Str.toLowerCase s1)
        end
  end.
Proof. by destruct s1 as [|b [|c s3]]. Qed.

(** [toLowerCase] does not see the case of the ASCII letters. *)
Lemma toLowerCase_ascii_lower_bounded n : ∀ s,
  (String.length s ≤ n)%nat → Str.toLowerCase (ascii_lower s) = Str.toLowerCase s.
Proof.
  induction n as [|n IH]; intros s Hs.
  { destruct s; [done|simpl in Hs; lia]. }
  destruct s as [|a s1]; [done|]. simpl in Hs.
  assert (Str.toLowerCase (ascii_lower s1) = Str.toLowerCase s1) as IH1
    by (apply IH; lia).
  change (ascii_lower (String a s1)) with (String (Str.lower_char a) (ascii_lower s1)).
  rewrite (toLowerCase_cons (Str.lower_char a)), (toLowerCase_cons a).
  rewrite lower_char_idempotent, IH1.
  destruct (lower_char_high a) as (Ha1 & _ & Ha2 & _).
  destruct s1 as [|b s2]; [done|]. simpl in Hs.
  change (ascii_lower (String b s2)) with (String (Str.lower_char b) (ascii_lower s2)).
  cbv beta iota.
  destruct (lower_char_high b) as (_ & Hb1 & _ & Hb2 & _).
  rewrite Ha1, Hb1, Ha2, Hb2, (IH s2) by lia.
  destruct s2 as [|c s3]; [done|]. simpl in Hs.
  change (ascii_lower (String c s3)) with (String (Str.lower_char c) (ascii_lower s3)).
  cbv beta iota.
  destruct (lower_char_high c) as (_ & _ & _ & _ & Hc).
  by rewrite Hc, (IH s3) by lia.
Qed.

Lemma toLowerCase_ascii_lower s :
  Str.toLowerCase (ascii_lower s) = Str.toLowerCase s.
Proof. by apply (toLowerCase_ascii_lower_bounded (String.length s)). Qed.

Lemma drop_slashes_lower l :
  Path.drop_slashes (map Str.lower_char l) = map Str.lower_char (Path.drop_slashes l).
Proof.
  induction l as [|c l IH]; simpl; [done|].
  destruct (decide (c = Path.slash)) as [Hc|Hc].
  - by rewrite decide_True by (by apply lower_char_slash).
  - by rewrite decide_False by (by rewrite lower_char_slash).
Qed.

Lemma take_component_lower l :
  Path.take_component (map Str.lower_char l) = map Str.lower_char (Path.take_component l).
Proof.
  induction l as [|c l IH]; simpl; [done|].
  destruct (decide (c = Path.slash)) as [Hc|Hc].
  - by rewrite decide_True by (by apply lower_char_slash).
  - rewrite decide_False by (by rewrite lower_char_slash). simpl. by rewrite IH.
Qed.

Lemma split_dot_lower l :
  Path.split_dot (map Str.lower_char l)
  = prod_map (map Str.lower_char) (map Str.lower_char) <$> Path.split_dot l.
Proof.
  induction l as [|c l IH]; simpl; [done|].
  destruct (decide (c = Path.dot)) as [Hc|Hc].
  - by rewrite decide_True by (by apply lower_char_dot).
  - rewrite decide_False by (by rewrite lower_char_dot). rewrite IH.
    by destruct (Path.split_dot l) as [[after before]|].
Qed.

Lemma extname_ascii_lower s :
  Path.extname (ascii_lower s) = ascii_lower (Path.extname s).
Proof.
  unfold Path.extname, Path.last_component_rev.
  rewrite chars_ascii_lower, <- map_rev, drop_slashes_lower, take_component_lower,
    split_dot_lower.
  destruct (Path.split_dot _) as [[after before]|]; simpl; [|done].
  destruct before as [|b before]; simpl; [done|].
  destruct (decide (after = [] ∧ b :: before = [Path.dot])) as [[-> Hb]|Hn].
  - injection Hb as -> ->. by rewrite decide_True.
  - rewrite decide_False.
    + rewrite <- map_rev.
      exact (of_chars_lower (Path.dot :: rev after)).
    + intros [Ha Hb]. apply Hn. split.
      * by destruct after.
      * injection Hb as Hb1 Hb2. apply lower_char_dot in Hb1 as ->.
        by destruct before.
Qed.

(** X12: the filter does not look at the case of the ASCII letters of the
    declared filename: two names that are equal once their ASCII capitals
    are lowered are both accepted or both refused with a given MIME type;
    so are a name and the name with its ASCII capitals lowered. *)
Theorem X12_filter_ignores_filename_case (n n' m : string) (sz : Z) (cut : bool) :
  ascii_lower n = ascii_lower n' →
  fileFilter {| originalname := n; mimetype := m; size := sz; cut_at_limit := cut |}
  = fileFilter {| originalname := n'; mimetype := m; size := sz; cut_at_limit := cut |}
  ∧ fileFilter {| originalname := n; mimetype := m; size := sz; cut_at_limit := cut |}
    = fileFilter {| originalname := ascii_lower n; mimetype := m; size := sz;
                    cut_at_limit := cut |}.
Proof.
  intros Hn. unfold fileFilter. simpl.
  assert (∀ x, Str.toLowerCase (Path.extname x)
               = Str.toLowerCase (Path.extname (ascii_lower x))) as Hlower.
  { intros x. by rewrite extname_ascii_lower, toLowerCase_ascii_lower. }
  split; [|by rewrite <- (Hlower n)].
  by rewrite (Hlower n), (Hlower n'), Hn.
Qed.

Lemma X12_filter_ignores_filename_case_witness :
  fileFilter {| originalname := "Holiday.JPG"; mimetype := "image/jpeg"; size := 1024; cut_at_limit := false |}
  = fileFilter {| originalname := "holiday.jpg"; mimetype := "image/jpeg"; size := 1024; cut_at_limit := false |}.
Proof.
  refine (proj1 (X12_filter_ignores_filename_case "Holiday.JPG" "holiday.jpg"
                   "image/jpeg" 1024 false _)).
  vm_compute. reflexivity.
Defined.

Lemma split_dot_None l : Forall (λ c, c ≠ Path.dot) l → Path.split_dot l = None.
Proof.
  induction 1 as [|c l Hc _ IH]; simpl; [done|].
  by rewrite decide_False, IH by done.
Qed.

Lemma take_component_subseteq l : Path.take_component l ⊆ l.
Proof.
  induction l as [|c l IH]; simpl; [done|].
  destruct (decide (c = Path.slash)); [apply list_subseteq_nil|].
  intros x [->|Hx]%elem_of_cons; [by left|]. right. by apply IH.
Qed.

Lemma drop_slashes_subseteq l : Path.drop_slashes l ⊆ l.
Proof.
  induction l as [|c l IH]; simpl; [done|].
  destruct (decide (c = Path.slash)); [|done].
  intros x Hx. right. by apply IH.
Qed.

Lemma last_component_subseteq s x :
  x ∈ Path.last_component_rev s → x ∈ Str.chars s.
Proof.
  unfold Path.last_component_rev.
  intros Hx%take_component_subseteq%drop_slashes_subseteq.
  apply list_elem_of_In. apply in_rev. by apply list_elem_of_In.
Qed.

(** X13: a declared filename without any dot has no extension and is
    refused, whatever MIME type is declared. *)
Theorem X13_no_dot_refused (f : FilePart) :
  Forall (λ c, c ≠ Path.dot) (Str.chars (originalname f)) →
  Path.extname (originalname f) = "" ∧ fileFilter f = false.
Proof.
  intros Hdots.
  assert (Path.extname (originalname f) = "") as Hext.
  { unfold Path.extname. rewrite split_dot_None; [done|].
    apply Forall_forall. intros x Hx%last_component_subseteq.
    rewrite Forall_forall in Hdots. by apply Hdots. }
  split; [done|]. unfold fileFilter. rewrite Hext. simpl.
  apply andb_false_r.
Qed.

Lemma X13_no_dot_refused_witness :
  fileFilter {| originalname := "jpeg"; mimetype := "image/jpeg"; size := 1024; cut_at_limit := false |} = false.
Proof.
  refine (proj2 (X13_no_dot_refused {| originalname := "jpeg"; mimetype := "image/jpeg"; size := 1024; cut_at_limit := false |} _)).
  apply (bool_decide_unpack _). vm_compute. exact I.
Defined.

Lemma split_dot_Some l after before :
  Path.split_dot l = Some (after, before) →
  l = (after ++ Path.dot :: before)%list ∧ Forall (λ c, c ≠ Path.dot) after.
Proof.
  revert after. induction l as [|c l IH]; intros after; simpl; [done|].
  destruct (decide (c = Path.dot)) as [->|Hc].
  - intros [= <- <-]. by split.
  - destruct (Path.split_dot l) as [[a b]|]; [|done].
    intros [= <- <-]. destruct (IH a eq_refl) as [-> Ha]. split; [done|].
    by constructor.
Qed.

Lemma split_dot_app after before :
  Forall (λ c, c ≠ Path.dot) after →
  Path.split_dot (after ++ Path.dot :: before) = Some (after, before).
Proof.
  induction 1 as [|c l Hc _ IH]; simpl.
  - by destruct (decide (Path.dot = Path.dot)).
  - by rewrite decide_False, IH by done.
Qed.

Lemma take_component_no_slash l : Forall (λ c, c ≠ Path.slash) (Path.take_component l).
Proof.
  induction l as [|c l IH]; simpl; [constructor|].
  destruct (decide (c = Path.slash)); by constructor.
Qed.

Lemma take_component_all l :
  Forall (λ c, c ≠ Path.slash) l → Path.take_component l = l.
Proof.
  induction 1 as [|c l Hc _ IH]; simpl; [done|].
  by rewrite decide_False, IH by done.
Qed.

Lemma drop_slashes_all l :
  Forall (λ c, c ≠ Path.slash) l → Path.drop_slashes l = l.
Proof. destruct 1 as [|c l Hc _]; simpl; [done|]. by rewrite decide_False. Qed.

(** The extension is empty, or a dot followed by characters that are
    neither dots nor slashes. *)
Lemma extname_shape s :
  Path.extname s = ""
  ∨ ∃ after, Path.extname s = Str.of_chars (Path.dot :: rev after)
             ∧ Forall plain_char after.
Proof.
  unfold Path.extname.
  destruct (Path.split_dot (Path.last_component_rev s)) as [[after before]|] eqn:Hsplit;
    [|by left].
  destruct before as [|b before]; [by left|].
  case_decide; [by left|]. right. exists after. split; [done|].
  apply split_dot_Some in Hsplit as [Hl Hdots].
  pose proof (take_component_no_slash (Path.drop_slashes (rev (Str.chars s)))) as Hsl.
  fold (Path.last_component_rev s) in Hsl. rewrite Hl in Hsl.
  apply Forall_app in Hsl as [Hsl _].
  rewrite Forall_forall in Hdots, Hsl |- *. intros c Hc. split; auto.
Qed.

Lemma extname_append a after :
  Str.chars a ≠ [] →
  Forall plain_char (Str.chars a) →
  Forall plain_char after →
  Path.extname (a +:+ Str.of_chars (Path.dot :: rev after))
  = Str.of_chars (Path.dot :: rev after).
Proof.
  intros Hne Ha Hafter.
  assert (Forall (λ c, c ≠ Path.slash)
            (after ++ Path.dot :: rev (Str.chars a))) as Hsl.
  { apply Forall_app. split.
    - eapply Forall_impl; [exact Hafter|]. by intros c [_ ?].
    - constructor; [done|]. apply Forall_forall. intros c Hc.
      apply list_elem_of_In, in_rev, list_elem_of_In in Hc.
      rewrite Forall_forall in Ha. by apply Ha. }
  unfold Path.extname, Path.last_component_rev.
  rewrite chars_app. unfold Str.of_chars at 1, Str.chars at 2.
  rewrite list_ascii_of_string_of_list_ascii.
  rewrite rev_app_distr. simpl rev. rewrite rev_involutive, <- app_assoc. simpl.
  rewrite drop_slashes_all, take_component_all by done.
  rewrite split_dot_app by (eapply Forall_impl; [exact Hafter|]; by intros c [? _]).
  destruct (rev (Str.chars a)) as [|b before] eqn:Hrev.
  { exfalso. apply Hne. by rewrite <- (rev_involutive (Str.chars a)), Hrev. }
  rewrite decide_False; [done|]. intros [_ [= -> ->]].
  assert (Path.dot ∈ Str.chars a) as Hin.
  { apply list_elem_of_In, in_rev. rewrite Hrev. by left. }
  rewrite Forall_forall in Ha. by destruct (Ha _ Hin).
Qed.

Lemma extname_no_dot a :
  Forall plain_char (Str.chars a) → Path.extname a = "".
Proof.
  intros Ha. unfold Path.extname. rewrite split_dot_None; [done|].
  apply Forall_forall. intros x Hx%last_component_subseteq.
  rewrite Forall_forall in Ha. by destruct (Ha _ Hx).
Qed.

Lemma uint_chars_plain d : Forall plain_char (uint_chars d).
Proof.
  unfold uint_chars.
  induction d as [|d IH|d IH|d IH|d IH|d IH|d IH|d IH|d IH|d IH|d IH]; simpl;
    [constructor|..]; (constructor; [by split|exact IH]).
Qed.

Lemma toString_plain n :
  Str.chars (Number_toString n) ≠ [] ∧ Forall plain_char (Str.chars (Number_toString n)).
Proof.
  unfold Number_toString. destruct n as [|p|p]; simpl.
  - split; [done|]. constructor; [by split|constructor].
  - pose proof (DecimalPos.Unsigned.to_uint_nonnil p) as Hnil.
    pose proof (uint_chars_plain (Pos.to_uint p)) as Hplain. unfold uint_chars in Hplain.
    destruct (Pos.to_uint p); [done|..]; (split; [done|exact Hplain]).
  - pose proof (DecimalPos.Unsigned.to_uint_nonnil p) as Hnil.
    pose proof (uint_chars_plain (Pos.to_uint p)) as Hplain. unfold uint_chars in Hplain.
    destruct (Pos.to_uint p); [done|..];
      (split; [done|constructor; [by split|exact Hplain]]).
Qed.

(** X14: the name under which an upload is stored has the extension of the
    declared filename: [path.extname] gives the same on both. *)
Theorem X14_stored_name_keeps_extension (e : Env) (f : FilePart) :
  Path.extname (storage_filename e f) = Path.extname (originalname f).
Proof.
  unfold storage_filename.
  set (uniqueSuffix := Number_toString (upload_ms e) +:+ "-" +:+ Number_toString (random e)).
  destruct (toString_plain (upload_ms e)) as [Hne1 Hp1].
  destruct (toString_plain (random e)) as [_ Hp2].
  assert (Str.chars uniqueSuffix ≠ [] ∧ Forall plain_char (Str.chars uniqueSuffix))
    as [Hne Hplain].
  { subst uniqueSuffix. rewrite !chars_app. split.
    - destruct (Str.chars (Number_toString (upload_ms e))); done.
    - apply Forall_app. split; [done|]. apply Forall_app. split; [|done].
      constructor; [by split|constructor]. }
  destruct (extname_shape (originalname f)) as [->|(after & -> & Hafter)].
  - apply extname_no_dot. rewrite chars_app. simpl. by rewrite app_nil_r.
  - by apply extname_append.
Qed.

(** ** Every post has its file *)

Lemma NoDup_delete_ne {A} (l : list A) i x y :
  NoDup l → l !! i = Some x → y ∈ delete i l → y ≠ x.
Proof.
  intros Hnd Hi Hy ->. apply list_elem_of_lookup in Hy as [j Hj].
  assert (∃ k, k ≠ i ∧ l !! k = Some x) as (k & Hk & Hkx).
  { destruct (decide (j < i)%nat).
    - exists j. split; [lia|]. by rewrite list_lookup_delete_lt in Hj.
    - exists (S j). split; [lia|]. by rewrite list_lookup_delete_ge in Hj by lia. }
  apply Hk. by eapply (NoDup_lookup l k i x).
Qed.

Lemma put_post_post_files param b w : post_files (put_post param b w).2 = post_files w.
Proof.
  unfold post_files. destruct (doc w) as [posts|] eqn:Hdoc.
  - destruct (put_post_frame param b w posts Hdoc) as (_ & posts' & -> & Hlen & Hsame).
    simpl. apply list_eq. intros j. rewrite !list_lookup_fmap.
    destruct (posts !! j) as [q|] eqn:Hq.
    + destruct (Hsame j q Hq) as (q' & -> & (_ & _ & Hurl) & _). simpl. by rewrite Hurl.
    + apply lookup_ge_None in Hq. rewrite <- Hlen in Hq.
      apply lookup_ge_None in Hq. by rewrite Hq.
  - rewrite put_post_run, Hdoc. simpl. by rewrite Hdoc.
Qed.

Lemma put_post_files param b w : files (put_post param b w).2 = files w.
Proof.
  rewrite put_post_run. destruct (doc w) as [posts|]; [|done].
  destruct (list_find _ posts) as [[i p]|]; [|done].
  by destruct (apply_update b p w).1.
Qed.

Lemma delete_post_files param w :
  (delete_post param w).2 = w
  ∨ ∃ i x,
      post_files w !! i = Some x
      ∧ post_files (delete_post param w).2 = delete i (post_files w)
      ∧ files (delete_post param w).2 = delete x (files w).
Proof.
  rewrite delete_post_run. unfold post_files.
  destruct (doc w) as [posts|] eqn:Hdoc; [|by left].
  destruct (list_find _ posts) as [[i p]|] eqn:Hfind; [|by left]. cbv zeta.
  apply list_find_Some in Hfind as (Hi & _ & _).
  destruct (files w !! _) as [[|]|]; [|by left|];
    right; exists i, (join_dirname (url p)); simpl;
    rewrite list_lookup_fmap, Hi, list_fmap_delete; by split_and!.
Qed.

Lemma create_post_files e req w :
  match file req with
  | Some f =>
      if fileFilter f then
        let n := in_cwd (path (stored_as e f)) in
        (post_files (post_posts e req w).2 = post_files w
         ∧ (files (post_posts e req w).2 = delete n (files w)
            ∨ files (post_posts e req w).2 = <[n := Plain]> (files w)))
        ∨ (post_files (post_posts e req w).2 = n :: post_files w
           ∧ files (post_posts e req w).2 = <[n := Plain]> (files w))
      else (post_posts e req w).2 = w
  | None => (post_posts e req w).2 = w
  end.
Proof.
  rewrite post_posts_run. unfold post_files.
  destruct (file req) as [f|]; [|done]. destruct (fileFilter f); [|done]. cbv zeta.
  destruct (truncated f); [left; split; [done|by left]|].
  destruct (required_missing req); [left; split; [done|by left]|].
  destruct (doc w) as [posts|] eqn:Hdoc.
  - destruct (parse_tags _ _).1 as [tgs|err].
    + right. simpl. by split.
    + left. simpl. rewrite Hdoc. split; [done|by right].
  - left. simpl. rewrite Hdoc. split; [done|by right].
Qed.

Lemma run_files_invariant ops : ∀ w,
  NoDup (post_files w) →
  (∀ x, x ∈ post_files w → is_Some (files w !! x)) →
  (∀ x, x ∈ post_files w → x ∉ stored_paths ops) →
  NoDup (stored_paths ops) →
  NoDup (post_files (run ops w))
  ∧ ∀ x, x ∈ post_files (run ops w) → is_Some (files (run ops w) !! x).
Proof.
  induction ops as [|o ops IH]; intros w Hnd Hfiles Hfresh Hnames; simpl; [done|].
  destruct o as [e req|param b|param]; simpl in *.
  - pose proof (create_post_files e req w) as Hstep.
    destruct (file req) as [f|]; [|rewrite Hstep; by apply IH].
    destruct (fileFilter f); [|rewrite Hstep; by apply IH].
    cbv zeta in Hstep. set (n := in_cwd (path (stored_as e f))) in *.
    apply NoDup_cons in Hnames as [Hn Hnames].
    destruct Hstep as [[Hpf Hf]|[Hpf Hf]].
    + apply IH; rewrite ?Hpf; [done| |by intros x Hx ?; eapply Hfresh; [|right]|done].
      intros x Hx. assert (x ≠ n) as Hne.
      { intros ->. apply (Hfresh n Hx). by left. }
      destruct Hf as [-> | ->].
      * rewrite lookup_delete_ne by done. by apply Hfiles.
      * rewrite lookup_insert_ne by done. by apply Hfiles.
    + apply IH; rewrite ?Hpf, ?Hf; [| | |done].
      * apply NoDup_cons. split; [|done]. intros Hx. apply (Hfresh n Hx). by left.
      * intros x [->|Hx]%elem_of_cons; [by rewrite lookup_insert_eq|].
        destruct (decide (n = x)) as [->|Hne]; [by rewrite lookup_insert_eq|].
        rewrite lookup_insert_ne by done. by apply Hfiles.
      * intros x [->|Hx]%elem_of_cons; [done|].
        intros ?. eapply Hfresh; [done|by right].
  - apply IH; rewrite ?put_post_post_files, ?put_post_files; done.
  - destruct (delete_post_files param w) as [->|(i & x & Hi & Hpf & Hf)];
      [by apply IH|].
    apply IH; rewrite ?Hpf, ?Hf; [| | |done].
    + exact (sublist_NoDup _ _ Hnd (sublist_delete _ _)).
    + intros y Hy. rewrite lookup_delete_ne.
      * apply Hfiles. eapply elem_of_sublist; [done|apply sublist_delete].
      * intros Heq. by apply (NoDup_delete_ne _ i x y Hnd Hi Hy).
    + intros y Hy. apply Hfresh. eapply elem_of_sublist; [done|apply sublist_delete].
Qed.

(** X15: when the create requests of a sequence of operations store their
    files under pairwise different names, then in the world that results
    from an empty collection every post has a file at its url, and no
    two posts share a file. *)
Theorem X15_posts_have_files (ops : list Op) (w0 : World) :
  doc w0 = Some [] →
  NoDup (stored_paths ops) →
  let w := run ops w0 in
  NoDup (post_files w)
  ∧ ∀ posts p, doc w = Some posts → p ∈ posts →
      is_Some (files w !! join_dirname (url p)).
Proof.
  intros Hdoc Hnames w.
  assert (post_files w0 = []) as Hempty by (unfold post_files; by rewrite Hdoc).
  destruct (run_files_invariant ops w0) as [Hnd Hfiles]; [| | |done|].
  - rewrite Hempty. constructor.
  - intros x. rewrite Hempty. by intros ?%elem_of_nil.
  - intros x. rewrite Hempty. by intros ?%elem_of_nil.
  - split; [done|]. intros posts p Hposts Hp. apply Hfiles.
    unfold post_files. fold w. rewrite Hposts. simpl.
    apply list_elem_of_fmap. by exists p.
Qed.

Lemma X15_posts_have_files_witness :
  let w := run [Create env0 trip_req; Create second_env second_req;
                Delete "1700000000000"] empty_world in
  NoDup (post_files w)
  ∧ ∀ posts p, doc w = Some posts → p ∈ posts →
      is_Some (files w !! join_dirname (url p)).
Proof.
  refine (X15_posts_have_files _ empty_world eq_refl _).
  apply (bool_decide_unpack _). vm_compute. exact I.
Defined.

(** X16: on a readable document every request leaves a readable
    document; a create that answers 201 makes the collection one post
    longer, a delete that answers 200 makes it one post shorter, an
    update that answers 200 keeps its length, and with any other answer
    the collection is the same list as before. *)
Theorem X16_collection_size (rq : Request) (w : World) (posts : list Post) :
  doc w = Some posts →
  ∃ posts',
    doc (handle rq w).2 = Some posts'
    ∧ (succeeded rq (handle rq w).1 →
         match rq with
         | PostPosts _ _ => length posts' = S (length posts)
         | DeletePost _ => S (length posts') = length posts
         | _ => length posts' = length posts
         end)
    ∧ (¬ succeeded rq (handle rq w).1 → posts' = posts).
Proof.
  intros Hdoc. destruct rq as [|param|e req|param b|param]; simpl.
  - exists posts. rewrite get_posts_run, Hdoc. simpl. by rewrite Hdoc.
  - exists posts. rewrite get_post_run, Hdoc.
    destruct (list_find _ posts) as [[i p]|]; simpl; by rewrite Hdoc.
  - destruct (post_posts_doc e req w)
      as [(posts0 & p & Hdoc0 & Hr & _ & Hdoc' & _)|(Hst & Hdoc' & _)].
    + rewrite Hdoc in Hdoc0. injection Hdoc0 as <-.
      exists (p :: posts). rewrite Hr. by split_and!.
    + exists posts. rewrite Hdoc', Hdoc. by split_and!.
  - destruct (put_post_frame param b w posts Hdoc) as (_ & posts' & Hdoc' & Hlen & _).
    exists posts'. split; [done|]. split; [done|].
    intros Hst. rewrite put_post_run, Hdoc in Hdoc', Hst.
    destruct (list_find _ posts) as [[i p]|]; [|simpl in *; congruence].
    destruct (apply_update b p w).1; simpl in *; [done|congruence].
  - rewrite delete_post_run, Hdoc.
    destruct (list_find _ posts) as [[i p]|] eqn:Hfind;
      [|exists posts; simpl; by rewrite Hdoc].
    apply list_find_Some in Hfind as (Hi & _ & _). cbv zeta.
    assert (S (length (delete i posts)) = length posts) as Hlen.
    { rewrite length_delete by (by eexists). apply lookup_lt_Some in Hi. lia. }
    destruct (files w !! _) as [[|]|]; simpl;
      [exists (delete i posts) | exists posts; by rewrite Hdoc | exists (delete i posts)];
      by split_and!.
Qed.

Lemma X16_collection_size_witness :
  ∃ posts',
    doc (delete_post "1700000000000" trip_world).2 = Some posts'
    ∧ S (length posts') = 1%nat.
Proof.
  destruct (X16_collection_size (DeletePost "1700000000000") trip_world [trip_post] eq_refl)
    as (posts' & Hdoc & Hlen & _).
  exists posts'. split; [exact Hdoc|]. apply Hlen. vm_compute. reflexivity.
Defined.
